(** * SpyNet: session store, endpoint registry and connection hub

    A shallow embedding of the core of the SpyNet mock server
    (EndpointRegistry.ts, SessionManager.ts, WebSocketHub.ts and the request
    handlers of server.ts), followed by the properties its specification
    states about it.

    Conventions of the embedding:
    - a JavaScript [Map<string, V>] is a [gmap string V]. A [Map] is
      iterated in insertion order and a [gmap] in key order; the one loop
      over a map that changes the state, in [cleanupExpired], deletes a set
      of sessions, and what each socket is left with does not depend on the
      order of the deletions;
    - a string is a [string] of 8-bit characters standing for ASCII text:
      [toUpperCase] maps [a]..[z] to [A]..[Z] and leaves every other
      character alone, which is what [String.prototype.toUpperCase] does on
      ASCII input;
    - [callCount] holds a non-negative integer and is a [nat];
    - a [Date] is the integer number of milliseconds it wraps (a [Z]);
    - a [WebSocket] object is a reference (a [nat]); the calls made on it
      are recorded per socket, in the manner of a test double, and [send]
      and [close] themselves do not fail;
    - the reply of a handler is what it hands to Fastify's [reply]. Fastify
      refuses a status outside 100..599 ([reply.code] throws), so what is
      said of the reply to a configured endpoint is said for valid statuses
      ([valid_status]); the effects on the state do not depend on it. *)

From Stdlib Require Import ZArith Lia Ascii String List.
From stdpp Require Import base option list gmap strings fin_maps.

Set Warnings "-register-all".
Local Open Scope Z_scope.

(** ** Strings *)

Definition ascii_toUpperCase (c : ascii) : ascii :=
  let n := nat_of_ascii c in
  if ((97 <=? n) && (n <=? 122))%nat then ascii_of_nat (n - 32) else c.

Fixpoint toUpperCase (s : string) : string :=
  match s with
  | EmptyString => EmptyString
  | String c r => String (ascii_toUpperCase c) (toUpperCase r)
  end.

(** Does the string contain a colon? *)
Fixpoint has_colon (s : string) : bool :=
  match s with
  | EmptyString => false
  | String c r => Ascii.eqb c ":" || has_colon r
  end.

(** Two characters are the same letter when they are equal or when one is
    the lower-case form of the other ([A] = 65 .. [Z] = 90, [a] = [A] + 32). *)
Definition same_letter (a b : ascii) : Prop :=
  a = b
  \/ ((65 <= nat_of_ascii a <= 90)%nat /\ nat_of_ascii b = (nat_of_ascii a + 32)%nat)
  \/ ((65 <= nat_of_ascii b <= 90)%nat /\ nat_of_ascii a = (nat_of_ascii b + 32)%nat).

(** Equality of strings up to the case of their letters. *)
Inductive eq_up_to_case : string -> string -> Prop :=
  | eq_case_nil : eq_up_to_case EmptyString EmptyString
  | eq_case_cons a b s t :
      same_letter a b -> eq_up_to_case s t ->
      eq_up_to_case (String a s) (String b t).

(** ** types.ts *)

(** A value of type [any]: the JSON-like payloads the server passes along
    without looking inside (numbers are integers here). *)
Inductive JsValue : Type :=
  | JsNull
  | JsBool (b : bool)
  | JsNumber (n : Z)
  | JsString (s : string)
  | JsArray (items : list JsValue)
  | JsObject (fields : list (string * JsValue)).

(** An optional field is an [option]: [None] when it is left out. *)
Record ResponseConfig := mkResponseConfig {
  status : Z;
  headers : option (list (string * string));
  body : option JsValue
}.

Record EndpointConfig := mkEndpointConfig {
  method : string;
  path : string;
  responses : list ResponseConfig;
  callCount : nat
}.

Record RequestRecord := mkRequestRecord {
  rr_method : string;
  rr_path : string;
  rr_status : Z;
  timestamp : Z;
  configured : bool;
  responseTime : Z
}.

(** A reference to a socket object. *)
Definition WebSocket := nat.

Record Session := mkSession {
  session_id : string;
  createdAt : Z;
  lastActivityAt : Z;
  endpoints : gmap string EndpointConfig;
  websocket : option WebSocket;
  requestHistory : list RequestRecord
}.

Inductive MessageType := action_type | data_type.

Record WebSocketMessage := mkWebSocketMessage {
  msg_type : MessageType;
  msg_action : option string;
  msg_params : option JsValue;
  msg_data : option JsValue
}.

(** ** EndpointRegistry.ts *)

Module EndpointRegistry.

(** The private [endpoints] map of the class. *)
Abbreviation Registry := (gmap string EndpointConfig).

Definition new : Registry := ∅.

Definition makeKey (method path : string) : string :=
  toUpperCase method +:+ ":" +:+ path.

(** [{ ...config, callCount: 0 }] *)
Definition reset (config : EndpointConfig) : EndpointConfig :=
  {| method := method config; path := path config;
     responses := responses config; callCount := 0 |}.

(** [config.callCount++] *)
Definition bump (config : EndpointConfig) : EndpointConfig :=
  {| method := method config; path := path config;
     responses := responses config; callCount := S (callCount config) |}.

Definition configure (reg : Registry) (config : EndpointConfig) : Registry :=
  let key := makeKey (method config) (path config) in
  <[key := reset config]> reg.

Definition get (reg : Registry) (method path : string) : option EndpointConfig :=
  let key := makeKey method path in
  reg !! key.

(** The entry found by [get] is the object stored in the map, so the
    increment of its [callCount] is an update of the map at that key. *)
Definition getNextResponse (reg : Registry) (method path : string)
  : option ResponseConfig * Registry :=
  match get reg method path with
  | None => (None, reg)
  | Some config =>
      if (length (responses config) =? 0)%nat then (None, reg)
      else
        let index := Nat.min (callCount config) (length (responses config) - 1) in
        let response := responses config !! index in
        (response, <[makeKey method path := bump config]> reg)
  end.

Definition clear (reg : Registry) (method path : string) : bool * Registry :=
  let key := makeKey method path in
  (bool_decide (is_Some (reg !! key)), delete key reg).

Definition clearAll (reg : Registry) : Registry := ∅.

End EndpointRegistry.

(** ** The state the classes share

    [SessionManager] owns [sessions] and its [ttl]; [WebSocketHub] owns
    [connections]. The sockets and the clock belong to the environment:
    [socket_log] records, per socket, the calls it received, and the
    [reads]-th reading of the clock ([new Date()], [Date.now()]) gives
    [wall reads]. *)

(** The text [JSON.stringify(message)] is kept symbolic: it is determined by
    the message it serializes, and parsing it gives that message back. *)
Inductive JsonText := JSON_stringify (message : WebSocketMessage).

Definition JSON_parse (text : JsonText) : WebSocketMessage :=
  match text with JSON_stringify message => message end.

Inductive WsCall :=
  | ws_send_call (data : JsonText)
  | ws_close_call.

Record World := mkWorld {
  sessions : gmap string Session;
  ttl : Z;
  connections : gmap string WebSocket;
  socket_log : gmap WebSocket (list WsCall);
  wall : nat -> Z;
  reads : nat
}.

(** The calls a socket has received so far, oldest first. *)
Definition socket_calls (w : World) (ws : WebSocket) : list WsCall :=
  default [] (socket_log w !! ws).

Definition with_sessions (f : gmap string Session -> gmap string Session) (w : World) : World :=
  mkWorld (f (sessions w)) (ttl w) (connections w) (socket_log w) (wall w) (reads w).

Definition with_connections (f : gmap string WebSocket -> gmap string WebSocket) (w : World)
  : World :=
  mkWorld (sessions w) (ttl w) (f (connections w)) (socket_log w) (wall w) (reads w).

Definition record_call (ws : WebSocket) (c : WsCall) (w : World) : World :=
  mkWorld (sessions w) (ttl w) (connections w)
          (<[ws := socket_calls w ws ++ [c]]> (socket_log w)) (wall w) (reads w).

(** A method is a state transformer with a result. *)
Definition M (A : Type) : Type := World -> A * World.

#[global] Instance M_ret : MRet M := fun A a w => (a, w).
#[global] Instance M_bind : MBind M :=
  fun A B k c w => let '(a, w') := c w in k a w'.

Definition gets {A} (f : World -> A) : M A := fun w => (f w, w).
Definition modify (f : World -> World) : M unit := fun w => (tt, f w).

(** [Date.now()], and [new Date()] seen through [getTime()]. *)
Definition Date_now : M Z :=
  fun w => (wall w (reads w),
            mkWorld (sessions w) (ttl w) (connections w) (socket_log w) (wall w) (S (reads w))).

Definition ws_send (ws : WebSocket) (data : JsonText) : M unit :=
  modify (record_call ws (ws_send_call data)).

Definition ws_close (ws : WebSocket) : M unit :=
  modify (record_call ws ws_close_call).

(** [for (const x of xs) body(x)] *)
Fixpoint for_each {A} (xs : list A) (body : A -> M unit) : M unit :=
  match xs with
  | [] => mret tt
  | x :: rest => body x ;; for_each rest body
  end.

(** ** SessionManager.ts *)

Module SessionManager.

Definition getOrCreate (sessionId : string) : M Session :=
  session ← gets (fun w => sessions w !! sessionId);
  match session with
  | Some session => mret session
  | None =>
      created ← Date_now;
      active ← Date_now;
      let session :=
        {| session_id := sessionId; createdAt := created; lastActivityAt := active;
           endpoints := ∅; websocket := None; requestHistory := [] |} in
      modify (with_sessions (insert sessionId session)) ;;
      mret session
  end.

(** [session.lastActivityAt = now] *)
Definition set_lastActivityAt (now : Z) (session : Session) : Session :=
  {| session_id := session_id session; createdAt := createdAt session;
     lastActivityAt := now; endpoints := endpoints session;
     websocket := websocket session; requestHistory := requestHistory session |}.

Definition updateActivity (sessionId : string) : M unit :=
  session ← gets (fun w => sessions w !! sessionId);
  match session with
  | Some _ =>
      now ← Date_now;
      modify (with_sessions (alter (set_lastActivityAt now) sessionId))
  | None => mret tt
  end.

Definition deleteSession (sessionId : string) : M bool :=
  session ← gets (fun w => sessions w !! sessionId);
  match session with
  | None => mret false
  | Some session =>
      match websocket session with
      | Some ws => ws_close ws
      | None => mret tt
      end ;;
      modify (with_sessions (delete sessionId)) ;;
      mret true
  end.

(** The first loop of [cleanupExpired]: the ids of the entries whose
    session has been idle for longer than [ttl]. *)
Definition expired_ids (now ttl : Z) (entries : list (string * Session)) : list string :=
  (filter (fun entry => ttl < now - lastActivityAt entry.2) entries).*1.

Definition cleanupExpired : M unit :=
  now ← Date_now;
  expired ← gets (fun w => expired_ids now (ttl w) (map_to_list (sessions w)));
  for_each expired (fun id => deleteSession id ;; mret tt).

End SessionManager.

(** ** WebSocketHub.ts *)

Module WebSocketHub.

Definition register (sessionId : string) (ws : WebSocket) : M unit :=
  modify (with_connections (insert sessionId ws)).

Definition unregister (sessionId : string) : M unit :=
  modify (with_connections (delete sessionId)).

Definition get (sessionId : string) : M (option WebSocket) :=
  gets (fun w => connections w !! sessionId).

Definition isConnected (sessionId : string) : M bool :=
  gets (fun w => bool_decide (is_Some (connections w !! sessionId))).

Definition sendAction (sessionId action : string) (params : option JsValue) : M bool :=
  ws ← gets (fun w => connections w !! sessionId);
  match ws with
  | None => mret false
  | Some ws =>
      let message :=
        {| msg_type := action_type; msg_action := Some action;
           msg_params := params; msg_data := None |} in
      ws_send ws (JSON_stringify message) ;;
      mret true
  end.

Definition sendData (sessionId : string) (data : option JsValue) : M bool :=
  ws ← gets (fun w => connections w !! sessionId);
  match ws with
  | None => mret false
  | Some ws =>
      let message :=
        {| msg_type := data_type; msg_action := None;
           msg_params := None; msg_data := data |} in
      ws_send ws (JSON_stringify message) ;;
      mret true
  end.

End WebSocketHub.

(** ** server.ts *)

Module Server.

(** [createServer]: a new [SessionManager] with the configured TTL and a new
    [WebSocketHub], on a clock that has not been read yet. *)
Definition createServer (sessionTTL : Z) (wall : nat -> Z) : World :=
  mkWorld ∅ sessionTTL ∅ ∅ wall 0.

(** What a handler hands to Fastify's [reply]: status code, headers and
    the value sent, if any. *)
Record Reply := mkReply {
  reply_code : Z;
  reply_headers : list (string * string);
  reply_payload : option JsValue
}.

(** [session.requestHistory.push(record)] *)
Definition push_record (record : RequestRecord) (session : Session) : Session :=
  {| session_id := session_id session; createdAt := createdAt session;
     lastActivityAt := lastActivityAt session; endpoints := endpoints session;
     websocket := websocket session;
     requestHistory := requestHistory session ++ [record] |}.

(** [history.slice(-count)] *)
Definition slice_last {A} (count : nat) (history : list A) : list A :=
  drop (length history - count) history.

(** [if (history.length > 1000) history = history.slice(-1000)] *)
Definition trim_history (session : Session) : Session :=
  if (1000 <? length (requestHistory session))%nat then
    {| session_id := session_id session; createdAt := createdAt session;
       lastActivityAt := lastActivityAt session; endpoints := endpoints session;
       websocket := websocket session;
       requestHistory := slice_last 1000 (requestHistory session) |}
  else session.

(** [session.endpoints.set(key, config)] *)
Definition set_endpoint (key : string) (config : EndpointConfig) (session : Session) : Session :=
  {| session_id := session_id session; createdAt := createdAt session;
     lastActivityAt := lastActivityAt session;
     endpoints := <[key := config]> (endpoints session);
     websocket := websocket session; requestHistory := requestHistory session |}.

(** An update of the object that [session] refers to in a handler. A
    handler runs to completion without yielding, so that object is the one
    stored under [sessionId]. *)
Definition on_session (sessionId : string) (f : Session -> Session) : M unit :=
  modify (with_sessions (alter f sessionId)).

Definition not_configured (method path : string) : JsValue :=
  JsObject [("error", JsString "Endpoint not configured");
            ("method", JsString method); ("path", JsString path)].

Definition success : JsValue := JsObject [("success", JsBool true)].

(** [server.all('/session/:sessionId/*', ...)]; [wildcard] stands for
    [request.params['*']] and [method] for [request.method]. *)
Definition dataPlane (sessionId wildcard method : string) : M Reply :=
  let path := "/" +:+ wildcard in
  startTime ← Date_now;
  _ ← SessionManager.getOrCreate sessionId;
  SessionManager.updateActivity sessionId ;;
  let key := toUpperCase method +:+ ":" +:+ path in
  config ← gets (fun w => sessions w !! sessionId ≫= fun session => endpoints session !! key);
  finished ← Date_now;
  let responseTime := finished - startTime in
  let unconfigured : M Reply :=
    stamp ← Date_now;
    on_session sessionId (push_record
      {| rr_method := method; rr_path := path; rr_status := 404;
         timestamp := stamp; configured := false; responseTime := responseTime |}) ;;
    mret (mkReply 404 [] (Some (not_configured method path))) in
  match config with
  | None => unconfigured
  | Some config =>
      match responses config with
      | [] => unconfigured
      | first :: _ =>
          let index := Nat.min (callCount config) (length (responses config) - 1) in
          let response := nth index (responses config) first in
          on_session sessionId (set_endpoint key (EndpointRegistry.bump config)) ;;
          stamp ← Date_now;
          on_session sessionId (push_record
            {| rr_method := method; rr_path := path; rr_status := status response;
               timestamp := stamp; configured := true; responseTime := responseTime |}) ;;
          on_session sessionId trim_history ;;
          mret (mkReply (status response) (default [] (headers response))
                        (Some (default JsNull (body response))))
      end
  end.

(** [server.post('/_mock/sessions/:sessionId/endpoints', ...)] *)
Definition postEndpoints (sessionId method path : string) (responses : list ResponseConfig)
  : M Reply :=
  _ ← SessionManager.getOrCreate sessionId;
  SessionManager.updateActivity sessionId ;;
  let key := toUpperCase method +:+ ":" +:+ path in
  on_session sessionId (set_endpoint key
    {| method := method; path := path; responses := responses; callCount := 0 |}) ;;
  mret (mkReply 201 [] (Some success)).

(** [server.delete('/_mock/sessions/:sessionId', ...)] *)
Definition deleteSessionRoute (sessionId : string) : M Reply :=
  deleted ← SessionManager.deleteSession sessionId;
  if deleted : bool then mret (mkReply 204 [] None)
  else mret (mkReply 404 [] (Some (JsObject [("error", JsString "Session not found")]))).

(** [server.post('/_mock/sessions/:sessionId/socket/action', ...)] *)
Definition postSocketAction (sessionId action : string) (params : option JsValue) : M Reply :=
  sent ← WebSocketHub.sendAction sessionId action params;
  if sent : bool then mret (mkReply 200 [] (Some success))
  else mret (mkReply 404 [] (Some (JsObject [("error", JsString "No active connection")]))).

(** [server.post('/_mock/sessions/:sessionId/socket/message', ...)] *)
Definition postSocketMessage (sessionId : string) (data : option JsValue) : M Reply :=
  sent ← WebSocketHub.sendData sessionId data;
  if sent : bool then mret (mkReply 200 [] (Some success))
  else mret (mkReply 404 [] (Some (JsObject [("error", JsString "No active connection")]))).

End Server.

(** ** Runs and scenarios

    The sequences of calls the properties below quantify over, the words of
    the specification they are measured against, and the values used in the
    examples. *)

(** [calls] successive [getNextResponse] calls for one endpoint: the values
    returned, in order, and the registry left behind. *)
Fixpoint callMany (calls : nat) (reg : gmap string EndpointConfig) (method path : string)
  : list (option ResponseConfig) * gmap string EndpointConfig :=
  match calls with
  | O => ([], reg)
  | S calls' =>
      let '(r, reg') := EndpointRegistry.getNextResponse reg method path in
      let '(rs, reg'') := callMany calls' reg' method path in
      (r :: rs, reg'')
  end.

(** A configuration whose counter has moved [times] further. *)
Definition advance (times : nat) (config : EndpointConfig) : EndpointConfig :=
  {| method := method config; path := path config;
     responses := responses config; callCount := (callCount config + times)%nat |}.

(** [times] data-plane requests for the same endpoint, one after the other. *)
Fixpoint dataPlaneMany (times : nat) (sessionId wildcard method : string)
  : M (list Server.Reply) :=
  match times with
  | O => mret []
  | S times' =>
      r ← Server.dataPlane sessionId wildcard method;
      rs ← dataPlaneMany times' sessionId wildcard method;
      mret (r :: rs)
  end.

(** The endpoints and the history of the session stored under an id, those
    of a new session when there is none. *)
Definition endpoints_of (w : World) (sessionId : string) : gmap string EndpointConfig :=
  default ∅ (endpoints <$> sessions w !! sessionId).

Definition history_of (w : World) (sessionId : string) : list RequestRecord :=
  default [] (requestHistory <$> sessions w !! sessionId).

(** A call on the hub that changes it. *)
Inductive HubCall :=
  | call_register (sessionId : string) (ws : WebSocket)
  | call_unregister (sessionId : string).

Definition hub_call (c : HubCall) : M unit :=
  match c with
  | call_register sessionId ws => WebSocketHub.register sessionId ws
  | call_unregister sessionId => WebSocketHub.unregister sessionId
  end.

(** The channel a sequence of hub calls leaves for [sessionId], given the
    one there was [before]: the last call made for that id decides. *)
Fixpoint last_registered (sessionId : string) (cs : list HubCall) (before : option WebSocket)
  : option WebSocket :=
  match cs with
  | [] => before
  | call_register sid ws :: rest =>
      last_registered sessionId rest (if decide (sid = sessionId) then Some ws else before)
  | call_unregister sid :: rest =>
      last_registered sessionId rest (if decide (sid = sessionId) then None else before)
  end.

(** The entries a map holds under one key. *)
Definition entries_for {V} (key : string) (m : gmap string V) : list (string * V) :=
  filter (fun entry => entry.1 = key) (map_to_list m).

(** The envelopes of the wire protocol, [{type: "action", action, params}]
    and [{type: "data", data}]. *)
Definition action_envelope (action : string) (params : option JsValue) : WebSocketMessage :=
  {| msg_type := action_type; msg_action := Some action;
     msg_params := params; msg_data := None |}.

Definition data_envelope (data : option JsValue) : WebSocketMessage :=
  {| msg_type := data_type; msg_action := None; msg_params := None; msg_data := data |}.

(** What one write on [ws] of the serialized [message] leaves behind: that
    call is added to the calls [ws] received, its text parses back to
    [message], and nothing else changes. *)
Definition one_write (ws : WebSocket) (message : WebSocketMessage) (w w' : World) : Prop :=
  exists text,
    socket_calls w' ws = socket_calls w ws ++ [ws_send_call text]
    /\ JSON_parse text = message
    /\ (forall other, ws <> other -> socket_calls w' other = socket_calls w other)
    /\ connections w' = connections w
    /\ sessions w' = sessions w.

(** A clock that advances by one millisecond at every reading. *)
Definition ticking (start : Z) (reads : nat) : Z := start + Z.of_nat reads.

(** A server just created, with the default TTL of one hour. *)
Definition fresh : World := Server.createServer 3600000 (ticking 0).

Definition demo_500 : ResponseConfig := mkResponseConfig 500 None None.

Definition demo_200 : ResponseConfig :=
  mkResponseConfig 200 None (Some (JsObject [("ok", JsBool true)])).

Definition demo_config : EndpointConfig :=
  mkEndpointConfig "GET" "/api/test" [demo_500; demo_200] 0.

(** A session that exists while the hub holds a channel for its id which
    the session object does not know of: [getOrCreate('test')] followed by
    [wsHub.register('test', socket)], with 7 for the socket. *)
Definition hub_only_connection : World :=
  snd (WebSocketHub.register "test" 7%nat (snd (SessionManager.getOrCreate "test" fresh))).

(** Two sessions, the first idle since time 0 and holding socket 3, the
    second active at time 5000, swept at time 6000 with a TTL of 2000. *)
Definition sweep_scene : World :=
  mkWorld
    (<["old" := mkSession "old" 0 0 ∅ (Some 3%nat) []]>
       (<["live" := mkSession "live" 0 5000 ∅ None []]> ∅))
    2000 ∅ ∅ (ticking 6000) 0.

(** The reply the data plane makes of a configured response. *)
Definition reply_of (response : ResponseConfig) : Server.Reply :=
  Server.mkReply (status response) (default [] (headers response))
                 (Some (default JsNull (body response))).

(** ** The rest of the classes and of the handlers *)

(** *** JavaScript values *)

(** The truthiness of an optional string: [undefined] and the empty string
    are falsy. *)
Definition truthy (s : option string) : bool :=
  match s with
  | Some s => negb (String.eqb s "")
  | None => false
  end.

(** [array.slice(start)] for an integer [start]: a negative [start] counts
    from the end, and both ends are clamped to the array. *)
Definition Array_slice {A} (start : Z) (l : list A) : list A :=
  let len := Z.of_nat (length l) in
  let from := if start <? 0 then Z.max (len + start) 0 else Z.min start len in
  drop (Z.to_nat from) l.

(** [history.slice(-Math.min(limit, 1000))], for a [limit] that is an
    integer or [NaN] ([None]); [slice] takes [NaN] for 0. *)
Definition last_requests (limit : option Z) (history : list RequestRecord)
  : list RequestRecord :=
  match limit with
  | Some limit => Array_slice (- Z.min limit 1000) history
  | None => Array_slice 0 history
  end.

(** *** EndpointRegistry.ts, SessionManager.ts: the remaining methods *)

(** [EndpointRegistry.list]: the stored configurations (in key order here,
    in insertion order in the source). *)
Definition EndpointRegistry_list (reg : gmap string EndpointConfig) : list EndpointConfig :=
  (map_to_list reg).*2.

Record SessionMetadata := mkSessionMetadata {
  meta_id : string;
  meta_createdAt : Z;
  meta_lastActivityAt : Z;
  connected : bool
}.

Definition metadata (session : Session) : SessionMetadata :=
  {| meta_id := session_id session; meta_createdAt := createdAt session;
     meta_lastActivityAt := lastActivityAt session;
     connected := bool_decide (websocket session <> None) |}.

(** [SessionManager.listSessions] (in key order here, in insertion order in
    the source). *)
Definition listSessions : M (list SessionMetadata) :=
  gets (fun w => (fun entry => metadata entry.2) <$> map_to_list (sessions w)).

(** [SessionManager.destroy], the timer apart. Deleting the entry an
    iteration over a [Map] stands on does not disturb the iteration, so
    every key present at the start is visited. *)
Definition destroy : M unit :=
  ids ← gets (fun w => (map_to_list (sessions w)).*1);
  for_each ids (fun id => SessionManager.deleteSession id ;; mret tt).

(** *** server.ts: the remaining routes *)

Module Routes.

(** [session.endpoints.delete(key)] *)
Definition delete_endpoint (key : string) (session : Session) : Session :=
  {| session_id := session_id session; createdAt := createdAt session;
     lastActivityAt := lastActivityAt session;
     endpoints := delete key (endpoints session);
     websocket := websocket session; requestHistory := requestHistory session |}.

(** [session.endpoints.clear()] *)
Definition clear_endpoints (session : Session) : Session :=
  {| session_id := session_id session; createdAt := createdAt session;
     lastActivityAt := lastActivityAt session; endpoints := ∅;
     websocket := websocket session; requestHistory := requestHistory session |}.

(** [session.websocket = socket] *)
Definition set_websocket (socket : option WebSocket) (session : Session) : Session :=
  {| session_id := session_id session; createdAt := createdAt session;
     lastActivityAt := lastActivityAt session; endpoints := endpoints session;
     websocket := socket; requestHistory := requestHistory session |}.

(** [server.get('/_mock/sessions/:sessionId/endpoints', ...)]: the value
    sent. *)
Definition getEndpoints (sessionId : string) : M (list EndpointConfig) :=
  session ← SessionManager.getOrCreate sessionId;
  mret (EndpointRegistry_list (endpoints session)).

(** [server.delete('/_mock/sessions/:sessionId/endpoints', ...)]; [method]
    and [path] are the query parameters. *)
Definition deleteEndpoints (sessionId : string) (method path : option string)
  : M Server.Reply :=
  _ ← SessionManager.getOrCreate sessionId;
  (if truthy method && truthy path then
     let key := toUpperCase (default "" method) +:+ ":" +:+ default "" path in
     Server.on_session sessionId (delete_endpoint key)
   else Server.on_session sessionId clear_endpoints) ;;
  mret (Server.mkReply 204 [] None).

(** [server.get('/_mock/sessions/:sessionId/requests', ...)]: the value
    sent. [limit] is [None] when the query has no [limit], and otherwise
    what [parseInt] makes of it: an integer or [NaN]. *)
Definition getRequests (sessionId : string) (limit : option (option Z))
  : M (list RequestRecord) :=
  let limit := default (Some 100) limit in
  session ← SessionManager.getOrCreate sessionId;
  mret (last_requests limit (requestHistory session)).

(** [server.get('/_mock/sessions', ...)]: the value sent. *)
Definition getSessions : M (list SessionMetadata) := listSessions.

(** The handler of the WebSocket route [/session/:sessionId/socket], run
    when [socket] connects. The callback it leaves on the socket for the
    [close] event is not part of it. *)
Definition socketRoute (sessionId : string) (socket : WebSocket) : M unit :=
  _ ← SessionManager.getOrCreate sessionId;
  Server.on_session sessionId (set_websocket (Some socket)) ;;
  WebSocketHub.register sessionId socket.

End Routes.

(** *** mcp/tools.ts *)

Module Tools.

(** [{ success: true, data }] or [{ success: false, error }] *)
Inductive ToolResult (A : Type) :=
  | tool_success (data : A)
  | tool_failure (error : string).
Arguments tool_success {A} data.
Arguments tool_failure {A} error.

Definition configure_endpoint (sessionId method path : option string)
  (responses : option (list ResponseConfig)) : M (ToolResult unit) :=
  if negb (truthy sessionId) || negb (truthy method) || negb (truthy path) then
    mret (tool_failure "Missing required fields: sessionId, method, path")
  else
    match responses with
    | None | Some [] => mret (tool_failure "Must provide at least one response")
    | Some responses =>
        let sessionId := default "" sessionId in
        let method := default "" method in
        let path := default "" path in
        _ ← SessionManager.getOrCreate sessionId;
        let key := toUpperCase method +:+ ":" +:+ path in
        Server.on_session sessionId (Server.set_endpoint key
          {| method := method; path := path; responses := responses; callCount := 0 |}) ;;
        mret (tool_success tt)
    end.

Definition list_sessions : M (ToolResult (list SessionMetadata)) :=
  sessions ← listSessions;
  mret (tool_success sessions).

Definition delete_session (sessionId : option string) : M (ToolResult unit) :=
  if negb (truthy sessionId) then
    mret (tool_failure "Missing required field: sessionId")
  else
    let sessionId := default "" sessionId in
    deleted ← SessionManager.deleteSession sessionId;
    if deleted : bool then mret (tool_success tt)
    else mret (tool_failure ("Session not found: " +:+ sessionId)).

Definition list_endpoints (sessionId : option string) : M (ToolResult (list EndpointConfig)) :=
  if negb (truthy sessionId) then
    mret (tool_failure "Missing required field: sessionId")
  else
    session ← SessionManager.getOrCreate (default "" sessionId);
    mret (tool_success (EndpointRegistry_list (endpoints session))).

Definition clear_endpoints (sessionId method path : option string) : M (ToolResult unit) :=
  if negb (truthy sessionId) then
    mret (tool_failure "Missing required field: sessionId")
  else
    let sessionId := default "" sessionId in
    _ ← SessionManager.getOrCreate sessionId;
    (if truthy method && truthy path then
       let key := toUpperCase (default "" method) +:+ ":" +:+ default "" path in
       Server.on_session sessionId (Routes.delete_endpoint key)
     else Server.on_session sessionId Routes.clear_endpoints) ;;
    mret (tool_success tt).

(** [limit] is [None] when the argument is left out. *)
Definition get_request_history (sessionId : option string) (limit : option Z)
  : M (ToolResult (list RequestRecord)) :=
  let limit := default 100 limit in
  if negb (truthy sessionId) then
    mret (tool_failure "Missing required field: sessionId")
  else
    session ← SessionManager.getOrCreate (default "" sessionId);
    mret (tool_success (last_requests (Some limit) (requestHistory session))).

Definition send_websocket_action (sessionId action : option string) (params : option JsValue)
  : M (ToolResult unit) :=
  if negb (truthy sessionId) || negb (truthy action) then
    mret (tool_failure "Missing required fields: sessionId, action")
  else
    sent ← WebSocketHub.sendAction (default "" sessionId) (default "" action) params;
    if sent : bool then mret (tool_success tt)
    else mret (tool_failure "No active connection for session").

(** [data] is [None] when it is [undefined]. *)
Definition send_websocket_data (sessionId : option string) (data : option JsValue)
  : M (ToolResult unit) :=
  if negb (truthy sessionId) || bool_decide (data = None) then
    mret (tool_failure "Missing required fields: sessionId, data")
  else
    sent ← WebSocketHub.sendData (default "" sessionId) data;
    if sent : bool then mret (tool_success tt)
    else mret (tool_failure "No active connection for session").

End Tools.

(** *** Runs of the registry *)

(** A call on an [EndpointRegistry] that may change it. *)
Inductive RegistryCall :=
  | reg_configure (config : EndpointConfig)
  | reg_getNextResponse (method path : string)
  | reg_clear (method path : string)
  | reg_clearAll.

Definition registry_call (reg : gmap string EndpointConfig) (c : RegistryCall)
  : gmap string EndpointConfig :=
  match c with
  | reg_configure config => EndpointRegistry.configure reg config
  | reg_getNextResponse method path => snd (EndpointRegistry.getNextResponse reg method path)
  | reg_clear method path => snd (EndpointRegistry.clear reg method path)
  | reg_clearAll => EndpointRegistry.clearAll reg
  end.

(** Every entry sits under the key of its own method and path. *)
Definition keyed (reg : gmap string EndpointConfig) : Prop :=
  forall key config,
    reg !! key = Some config ->
    key = EndpointRegistry.makeKey (method config) (path config).

(** *** Runs of the server *)

(** What can happen to a running server: a request on one of the routes, a
    socket connecting, a tool call, or the timer firing the sweep. *)
Inductive Event :=
  | ev_dataPlane (sessionId wildcard method : string)
  | ev_postEndpoints (sessionId method path : string) (responses : list ResponseConfig)
  | ev_getEndpoints (sessionId : string)
  | ev_deleteEndpoints (sessionId : string) (method path : option string)
  | ev_getRequests (sessionId : string) (limit : option (option Z))
  | ev_getSessions
  | ev_deleteSession (sessionId : string)
  | ev_socket (sessionId : string) (socket : WebSocket)
  | ev_socketAction (sessionId action : string) (params : option JsValue)
  | ev_socketMessage (sessionId : string) (data : option JsValue)
  | ev_sweep
  | ev_configure_endpoint (sessionId method path : option string)
      (responses : option (list ResponseConfig))
  | ev_list_sessions
  | ev_delete_session (sessionId : option string)
  | ev_list_endpoints (sessionId : option string)
  | ev_clear_endpoints (sessionId method path : option string)
  | ev_get_request_history (sessionId : option string) (limit : option Z)
  | ev_send_websocket_action (sessionId action : option string) (params : option JsValue)
  | ev_send_websocket_data (sessionId : option string) (data : option JsValue).

(** Forget the result of a handler. *)
Definition ignore {A} (c : M A) : M unit := _ ← c; mret tt.

Definition handle (e : Event) : M unit :=
  match e with
  | ev_dataPlane sessionId wildcard method => ignore (Server.dataPlane sessionId wildcard method)
  | ev_postEndpoints sessionId method path responses =>
      ignore (Server.postEndpoints sessionId method path responses)
  | ev_getEndpoints sessionId => ignore (Routes.getEndpoints sessionId)
  | ev_deleteEndpoints sessionId method path =>
      ignore (Routes.deleteEndpoints sessionId method path)
  | ev_getRequests sessionId limit => ignore (Routes.getRequests sessionId limit)
  | ev_getSessions => ignore Routes.getSessions
  | ev_deleteSession sessionId => ignore (Server.deleteSessionRoute sessionId)
  | ev_socket sessionId socket => Routes.socketRoute sessionId socket
  | ev_socketAction sessionId action params =>
      ignore (Server.postSocketAction sessionId action params)
  | ev_socketMessage sessionId data => ignore (Server.postSocketMessage sessionId data)
  | ev_sweep => SessionManager.cleanupExpired
  | ev_configure_endpoint sessionId method path responses =>
      ignore (Tools.configure_endpoint sessionId method path responses)
  | ev_list_sessions => ignore Tools.list_sessions
  | ev_delete_session sessionId => ignore (Tools.delete_session sessionId)
  | ev_list_endpoints sessionId => ignore (Tools.list_endpoints sessionId)
  | ev_clear_endpoints sessionId method path =>
      ignore (Tools.clear_endpoints sessionId method path)
  | ev_get_request_history sessionId limit =>
      ignore (Tools.get_request_history sessionId limit)
  | ev_send_websocket_action sessionId action params =>
      ignore (Tools.send_websocket_action sessionId action params)
  | ev_send_websocket_data sessionId data => ignore (Tools.send_websocket_data sessionId data)
  end.

(** The state a server is in after the events [events], in order. *)
Definition after (events : list Event) (sessionTTL : Z) (wall : nat -> Z) : World :=
  snd (for_each events handle (Server.createServer sessionTTL wall)).

(** Every session is stored under its own id and every endpoint of a
    session under the key of its own method and path. *)
Definition well_keyed (m : gmap string Session) : Prop :=
  forall id session,
    m !! id = Some session ->
    session_id session = id /\ keyed (endpoints session).

(** [c] keeps the sessions well keyed. *)
Definition preserves {A} (c : M A) : Prop :=
  forall w, well_keyed (sessions w) -> well_keyed (sessions (snd (c w))).

(** [c] leaves what the store and the hub hold for session [b] as it was. *)
Definition leaves_alone {A} (b : string) (c : M A) : Prop :=
  forall w,
    sessions (snd (c w)) !! b = sessions w !! b
    /\ connections (snd (c w)) !! b = connections w !! b.

(** *** Domains on which the embedding is exact *)

(** The string consists of ASCII characters (codes below 128). On such a
    string [toUpperCase] above is [String.prototype.toUpperCase]; beyond
    ASCII the JavaScript function also maps letters such as [é], and [ß] to
    [SS], which the embedding does not follow. *)
Fixpoint is_ascii (s : string) : bool :=
  match s with
  | EmptyString => true
  | String c r => (nat_of_ascii c <? 128)%nat && is_ascii r
  end.

(** A status Fastify's [reply.code] accepts. For any other status
    [reply.code(response.status)] throws, after the handler has advanced the
    counter and recorded the request with the configured status, and the
    client is answered 500 by the framework; the reply [Server.dataPlane]
    gives for a configured endpoint is the one sent for a valid status. *)
Definition valid_status (response : ResponseConfig) : Prop :=
  100 <= status response <= 599.

(** Unfolds the plumbing of [M]. *)
Ltac run :=
  unfold mbind, M_bind, mret, M_ret, gets, modify, ws_close, ws_send, Date_now; cbn.

(** ** Properties of the endpoint registry *)

Section registry_facts.
Import EndpointRegistry.
Implicit Types (reg : Registry) (config : EndpointConfig).

Lemma getNextResponse_step reg m p config :
  get reg m p = Some config ->
  responses config <> [] ->
  getNextResponse reg m p =
    (responses config !! Nat.min (callCount config) (length (responses config) - 1),
     <[makeKey m p := bump config]> reg).
Proof.
  intros Hget Hne. unfold getNextResponse. rewrite Hget.
  destruct (responses config) as [|r rs] eqn:E; [done|]. reflexivity.
Qed.

Lemma get_after_step reg m p config :
  get (<[makeKey m p := bump config]> reg) m p = Some (bump config).
Proof. unfold get. apply lookup_insert_eq. Qed.

(** From counter value [c], [j] calls read the indices
    [min c (n-1)], [min (c+1) (n-1)], ... *)
Lemma callMany_from reg m p config j :
  get reg m p = Some config ->
  responses config <> [] ->
  fst (callMany j reg m p) =
    (fun i => responses config !! Nat.min (callCount config + i) (length (responses config) - 1))
      <$> seq 0 j.
Proof.
  revert reg config. induction j as [|j IH]; intros reg config Hget Hne; [done|].
  cbn [callMany]. rewrite (getNextResponse_step _ _ _ _ Hget Hne).
  specialize (IH _ (bump config) (get_after_step reg m p config) Hne).
  destruct (callMany j _ m p) as [rs reg''] eqn:E. cbn in IH |- *.
  rewrite Nat.add_0_r. f_equal. rewrite IH.
  rewrite <- (fmap_S_seq 0 j), <- list_fmap_compose.
  apply list_fmap_ext. intros _ i _. cbn. by rewrite Nat.add_succ_r.
Qed.

(** After [j] calls the stored configuration is the original one with its
    counter advanced by [j]. *)
Lemma callMany_counter reg m p config j :
  get reg m p = Some config ->
  responses config <> [] ->
  get (snd (callMany j reg m p)) m p = Some (advance j config).
Proof.
  revert reg config. induction j as [|j IH]; intros reg config Hget Hne.
  - cbn. rewrite Hget. f_equal. destruct config. unfold advance; cbn.
    f_equal; lia.
  - cbn [callMany]. rewrite (getNextResponse_step _ _ _ _ Hget Hne).
    specialize (IH _ (bump config) (get_after_step reg m p config) Hne).
    destruct (callMany j _ m p) as [rs reg''] eqn:E. cbn in IH |- *.
    rewrite IH. f_equal. unfold advance, bump; cbn. f_equal; lia.
Qed.

(** Entries under other keys are never touched by [getNextResponse]. *)
Lemma getNextResponse_other_keys reg m p key :
  key <> makeKey m p ->
  snd (getNextResponse reg m p) !! key = reg !! key.
Proof.
  intros Hkey. unfold getNextResponse.
  destruct (get reg m p) as [config|]; [|done].
  destruct (length (responses config) =? 0)%nat; [done|].
  cbn. by rewrite lookup_insert_ne.
Qed.

(** C1. For a configuration with [n >= 1] responses: the call made at
    counter value [c] returns the response at index [min c (n-1)] and leaves
    the counter at [c+1], call after call; so, starting from counter zero,
    [n+k] calls return the responses at indices [0, 1, ..., n-1] followed by
    [k] times the one at index [n-1]. *)
Theorem getNextResponse_sequence reg m p config n k :
  get reg m p = Some config ->
  length (responses config) = n ->
  (1 <= n)%nat ->
  (forall j,
     fst (callMany j reg m p) =
       (fun i => responses config !! Nat.min (callCount config + i) (n - 1)) <$> seq 0 j)
  /\ (forall j, exists config',
        get (snd (callMany j reg m p)) m p = Some config'
        /\ callCount config' = (callCount config + j)%nat
        /\ responses config' = responses config)
  /\ (callCount config = 0%nat ->
      fst (callMany (n + k) reg m p) =
        (fun i => responses config !! i) <$> (seq 0 n ++ replicate k (n - 1)%nat)).
Proof.
  intros Hget Hn Hpos.
  assert (Hne : responses config <> []) by (intros E; rewrite E in Hn; cbn in Hn; lia).
  split; [|split].
  - intros j. rewrite <- Hn. by apply callMany_from.
  - intros j. exists (advance j config).
    split; [by apply callMany_counter|]. by split.
  - intros Hzero. rewrite (callMany_from _ _ _ _ _ Hget Hne), Hzero, Hn.
    rewrite seq_app, !fmap_app. f_equal.
    + apply list_fmap_ext. intros idx i Hi. cbn.
      apply lookup_seq in Hi as [Hi Hlt]. f_equal. lia.
    + assert (Hrep : forall start, (n - 1 <= start)%nat ->
                (fun i => responses config !! Nat.min (0 + i) (n - 1)) <$> seq start k
                = (fun i => responses config !! i) <$> replicate k (n - 1)%nat).
      { induction k as [|k IH]; intros start Hstart; [done|].
        cbn [seq replicate]. rewrite !fmap_cons. f_equal.
        - f_equal. lia.
        - apply IH. lia. }
      apply Hrep. lia.
Qed.

Lemma getNextResponse_sequence_witness :
  fst (callMany 3 (configure new demo_config) "GET" "/api/test") =
    [Some demo_500; Some demo_200; Some demo_200].
Proof.
  pose proof (getNextResponse_sequence (configure new demo_config) "GET" "/api/test"
                (reset demo_config) 2 1 ltac:(reflexivity) ltac:(reflexivity) ltac:(lia))
    as (_ & _ & H).
  exact (H eq_refl).
Defined.

(** C10. With no configuration for the key, or with an empty response
    list, [getNextResponse] returns null and the registry is left exactly
    as it was. *)
Theorem getNextResponse_absent_no_effect reg m p :
  (get reg m p = None \/ exists config, get reg m p = Some config /\ responses config = []) ->
  getNextResponse reg m p = (None, reg).
Proof.
  unfold getNextResponse. intros [-> | (config & -> & Hempty)]; [done|].
  by rewrite Hempty.
Qed.

Lemma getNextResponse_absent_no_effect_witness :
  getNextResponse (configure new demo_config) "GET" "/api/unknown"
  = (None, configure new demo_config)
  /\ getNextResponse (configure new (mkEndpointConfig "GET" "/api/empty" [] 0)) "get" "/api/empty"
     = (None, configure new (mkEndpointConfig "GET" "/api/empty" [] 0)).
Proof.
  split.
  - apply getNextResponse_absent_no_effect. left. reflexivity.
  - apply getNextResponse_absent_no_effect. right.
    exists (mkEndpointConfig "GET" "/api/empty" [] 0). split; reflexivity.
Defined.

(** C3. Configuring a key, whatever was stored under it before, stores the
    new response list with counter zero, so the next [getNextResponse] for
    that key returns element 0 of the new list (and moves the counter to
    one). *)
Theorem configure_resets reg config m p :
  makeKey m p = makeKey (method config) (path config) ->
  get (configure reg config) m p = Some (reset config)
  /\ responses (reset config) = responses config
  /\ callCount (reset config) = 0%nat
  /\ fst (getNextResponse (configure reg config) m p) = responses config !! 0%nat.
Proof.
  intros Hkey.
  assert (Hget : get (configure reg config) m p = Some (reset config)).
  { unfold get, configure. rewrite Hkey. apply lookup_insert_eq. }
  repeat split; [done|].
  destruct (responses config) as [|r rs] eqn:E.
  - unfold getNextResponse. rewrite Hget. cbn. by rewrite E.
  - rewrite (getNextResponse_step _ _ _ _ Hget); cbn; rewrite E; done.
Qed.

Lemma configure_resets_witness :
  let v1 := mkEndpointConfig "GET" "/api/test" [mkResponseConfig 200 None (Some (JsNumber 1))] 0 in
  let v2 := mkEndpointConfig "GET" "/api/test" [mkResponseConfig 200 None (Some (JsNumber 2))] 0 in
  let used := snd (getNextResponse (configure new v1) "GET" "/api/test") in
  fst (getNextResponse (configure used v2) "get" "/api/test")
  = Some (mkResponseConfig 200 None (Some (JsNumber 2))).
Proof.
  intros v1 v2 used.
  exact (proj2 (proj2 (proj2
    (configure_resets used v2 "get" "/api/test" ltac:(reflexivity))))).
Defined.

End registry_facts.

(** ** The endpoint key *)

Section key_facts.
Import EndpointRegistry.

(** Case analysis on whether the code of [c] lies in [97..122]. *)
Ltac case_range c :=
  destruct (Nat.leb_spec 97 (nat_of_ascii c)), (Nat.leb_spec (nat_of_ascii c) 122).

Lemma nat_of_ascii_toUpperCase c :
  nat_of_ascii (ascii_toUpperCase c) =
    if ((97 <=? nat_of_ascii c) && (nat_of_ascii c <=? 122))%nat
    then (nat_of_ascii c - 32)%nat else nat_of_ascii c.
Proof.
  unfold ascii_toUpperCase. cbv zeta.
  destruct ((97 <=? nat_of_ascii c) && (nat_of_ascii c <=? 122))%nat eqn:E; [|done].
  apply nat_ascii_embedding. pose proof (nat_ascii_bounded c). lia.
Qed.

Lemma nat_of_ascii_inj a b : nat_of_ascii a = nat_of_ascii b -> a = b.
Proof.
  intros H. rewrite <- (ascii_nat_embedding a), <- (ascii_nat_embedding b). by rewrite H.
Qed.

Lemma ascii_toUpperCase_same_letter a b :
  ascii_toUpperCase a = ascii_toUpperCase b <-> same_letter a b.
Proof.
  unfold same_letter. split.
  - intros H. apply (f_equal nat_of_ascii) in H.
    rewrite !nat_of_ascii_toUpperCase in H.
    destruct (decide (nat_of_ascii a = nat_of_ascii b)) as [E|E];
      [left; by apply nat_of_ascii_inj|right].
    revert H. case_range a; case_range b; cbn; lia.
  - intros H. apply nat_of_ascii_inj. rewrite !nat_of_ascii_toUpperCase.
    destruct H as [-> | H]; [done|].
    case_range a; case_range b; cbn; lia.
Qed.

(** Upper-casing equates exactly the strings that are equal up to case. *)
Lemma toUpperCase_eq_up_to_case s t :
  toUpperCase s = toUpperCase t <-> eq_up_to_case s t.
Proof.
  split.
  - revert t. induction s as [|a s IH]; intros [|b t] H; cbn in H; try discriminate.
    + constructor.
    + injection H as Hc Hr. constructor; [by apply ascii_toUpperCase_same_letter | by apply IH].
  - induction 1 as [|a b s t Hc _ IH]; [done|]. cbn.
    f_equal; [by apply ascii_toUpperCase_same_letter | done].
Qed.

Lemma ascii_toUpperCase_colon c :
  Ascii.eqb (ascii_toUpperCase c) ":" = Ascii.eqb c ":".
Proof.
  destruct (Ascii.eqb_spec c ":") as [-> | Hc]; [done|].
  apply Ascii.eqb_neq. intros H. apply Hc. apply nat_of_ascii_inj.
  apply (f_equal nat_of_ascii) in H. rewrite nat_of_ascii_toUpperCase in H.
  change (nat_of_ascii ":") with 58%nat in *. revert H.
  case_range c; cbn; lia.
Qed.

Lemma has_colon_toUpperCase s : has_colon (toUpperCase s) = has_colon s.
Proof.
  induction s as [|c s IH]; [done|]. cbn. by rewrite ascii_toUpperCase_colon, IH.
Qed.

Lemma append_nil (s : string) : "" +:+ s = s.
Proof. reflexivity. Qed.

Lemma append_cons (c : ascii) (s t : string) : String c s +:+ t = String c (s +:+ t).
Proof. reflexivity. Qed.

(** A colon-free prefix is determined by the text up to the first colon. *)
Lemma colon_split u1 u2 p1 p2 :
  has_colon u1 = false -> has_colon u2 = false ->
  u1 +:+ ":" +:+ p1 = u2 +:+ ":" +:+ p2 ->
  u1 = u2 /\ p1 = p2.
Proof.
  revert u2. induction u1 as [|a u1 IH]; intros [|b u2] H1 H2 H;
    repeat (rewrite append_nil in H || rewrite append_cons in H); cbn in H1, H2.
  - by injection H as ->.
  - injection H as <- _. by rewrite Ascii.eqb_refl in H2.
  - injection H as -> _. by rewrite Ascii.eqb_refl in H1.
  - injection H as -> H. apply orb_false_elim in H1 as [_ H1], H2 as [_ H2].
    destruct (IH u2 H1 H2 H) as [-> ->]. done.
Qed.

Lemma makeKey_same m1 p1 m2 p2 :
  eq_up_to_case m1 m2 -> p1 = p2 -> makeKey m1 p1 = makeKey m2 p2.
Proof.
  intros Hm ->. unfold makeKey. by apply toUpperCase_eq_up_to_case in Hm as ->.
Qed.

Lemma makeKey_inj m1 p1 m2 p2 :
  has_colon m1 = false -> has_colon m2 = false ->
  makeKey m1 p1 = makeKey m2 p2 -> eq_up_to_case m1 m2 /\ p1 = p2.
Proof.
  intros H1 H2 H. unfold makeKey in H.
  apply colon_split in H as [Hu ->]; try by rewrite has_colon_toUpperCase.
  split; [by apply toUpperCase_eq_up_to_case | done].
Qed.

(** C8 as stated does not hold: the key is the plain concatenation
    [UPPER(method) + ":" + path], so a colon inside the method moves the
    boundary. Method [GET:] with path [x] and method [GET] with path [:x]
    have the same key [GET::x], though neither the methods nor the paths
    agree. *)
Lemma makeKey_colon_collision :
  makeKey "GET:" "x" = makeKey "GET" ":x"
  /\ ~ (eq_up_to_case "GET:" "GET" /\ "x" = ":x")
  /\ get (configure new (mkEndpointConfig "GET:" "x" [demo_200] 0)) "GET" ":x"
     = Some (mkEndpointConfig "GET:" "x" [demo_200] 0).
Proof.
  split; [reflexivity|]. split; [|reflexivity].
  intros [_ H]. discriminate H.
Qed.

(** C8, amended. The key is [UPPER(method) + ":" + path]. For methods that
    are ASCII strings and contain no colon, two configurations share an
    entry exactly when their methods are equal up to case and their paths
    are the same string, and configuring one endpoint leaves the entry read
    for any endpoint that differs in method or in path as it was. (ASCII is
    where upper-casing only changes the case of [a]..[z]: beyond it
    [String.prototype.toUpperCase] equates methods that are not equal up to
    case, such as [straße] and [STRASSE].) *)
Theorem makeKey_exact_match m1 p1 m2 p2 :
  is_ascii m1 = true -> is_ascii m2 = true ->
  has_colon m1 = false -> has_colon m2 = false ->
  makeKey m1 p1 = toUpperCase m1 +:+ ":" +:+ p1
  /\ (makeKey m1 p1 = makeKey m2 p2 <-> eq_up_to_case m1 m2 /\ p1 = p2)
  /\ (forall reg rs c,
        ~ (eq_up_to_case m1 m2 /\ p1 = p2) ->
        get (configure reg (mkEndpointConfig m1 p1 rs c)) m2 p2 = get reg m2 p2).
Proof.
  intros _ _ H1 H2. split; [done|]. split.
  - split; [by apply makeKey_inj | intros [Hm Hp]; by apply makeKey_same].
  - intros reg rs c Hdiff. unfold get, configure. cbn.
    apply lookup_insert_ne. intros Hkey. apply Hdiff. by apply makeKey_inj.
Qed.

Lemma makeKey_exact_match_witness :
  get (configure new (mkEndpointConfig "GET" "/api/users" [demo_200] 0)) "POST" "/api/users" = None
  /\ get (configure new (mkEndpointConfig "GET" "/api/users" [demo_200] 0)) "GET" "/api/users/123" = None.
Proof.
  split.
  - rewrite (proj2 (proj2 (makeKey_exact_match "GET" "/api/users" "POST" "/api/users"
               ltac:(reflexivity) ltac:(reflexivity)
               ltac:(reflexivity) ltac:(reflexivity)))); [reflexivity|].
    intros [H _]. inversion H as [|a b s t Hc _]; subst.
    apply ascii_toUpperCase_same_letter in Hc. discriminate Hc.
  - rewrite (proj2 (proj2 (makeKey_exact_match "GET" "/api/users" "GET" "/api/users/123"
               ltac:(reflexivity) ltac:(reflexivity)
               ltac:(reflexivity) ltac:(reflexivity)))); [reflexivity|].
    intros [_ H]. discriminate H.
Defined.

End key_facts.

(** ** The session store *)

Section session_facts.
Import SessionManager.

Lemma getOrCreate_existing w sessionId session :
  sessions w !! sessionId = Some session ->
  getOrCreate sessionId w = (session, w).
Proof. intros H. unfold getOrCreate. run. by rewrite H. Qed.

Lemma getOrCreate_stores w sessionId :
  sessions (snd (getOrCreate sessionId w)) !! sessionId = Some (fst (getOrCreate sessionId w)).
Proof.
  unfold getOrCreate. run. destruct (sessions w !! sessionId) eqn:E; cbn; [done|].
  apply lookup_insert_eq.
Qed.

(** C7. [getOrCreate] returns the session stored under the id and stores
    the one it creates: a second call with the same id returns the same
    session and changes nothing, and more generally a call for an id that
    is in the store returns the stored session as it is at that moment and
    leaves the whole state, clock included, untouched. *)
Theorem getOrCreate_idempotent w sessionId s1 w1 :
  getOrCreate sessionId w = (s1, w1) ->
  sessions w1 !! sessionId = Some s1
  /\ getOrCreate sessionId w1 = (s1, w1)
  /\ (forall w2 s2, sessions w2 !! sessionId = Some s2 -> getOrCreate sessionId w2 = (s2, w2)).
Proof.
  intros H. pose proof (getOrCreate_stores w sessionId) as Hs. rewrite H in Hs. cbn in Hs.
  split; [done|]. split; [by apply getOrCreate_existing|].
  intros w2 s2. apply getOrCreate_existing.
Qed.

Lemma deleteSession_missing w sessionId :
  sessions w !! sessionId = None -> deleteSession sessionId w = (false, w).
Proof. intros H. unfold deleteSession. run. by rewrite H. Qed.

Lemma deleteSession_present w sessionId session :
  sessions w !! sessionId = Some session ->
  deleteSession sessionId w =
    (true, with_sessions (delete sessionId)
             (match websocket session with
              | Some ws => record_call ws ws_close_call w
              | None => w
              end)).
Proof.
  intros H. unfold deleteSession. run. rewrite H.
  by destruct (websocket session).
Qed.

Lemma socket_calls_record_eq w ws c :
  socket_calls (record_call ws c w) ws = socket_calls w ws ++ [c].
Proof. unfold socket_calls at 1, record_call; cbn. by rewrite lookup_insert_eq. Qed.

Lemma socket_calls_record_ne w ws ws' c :
  ws <> ws' -> socket_calls (record_call ws c w) ws' = socket_calls w ws'.
Proof. intros H. unfold socket_calls, record_call; cbn. by rewrite lookup_insert_ne. Qed.

(** C6, amended. [deleteSession] returns [false] and changes nothing when
    no session is stored under the id. Otherwise it returns [true]: the
    socket held in the session's own [websocket] field, if there is one, is
    closed first, then the session is removed from the store. The
    Connection Hub takes no part: its entries are left as they were. *)
Theorem deleteSession_result w sessionId :
  match sessions w !! sessionId with
  | None => deleteSession sessionId w = (false, w)
  | Some session =>
      exists w',
        deleteSession sessionId w = (true, w')
        /\ sessions w' = delete sessionId (sessions w)
        /\ sessions w' !! sessionId = None
        /\ connections w' = connections w
        /\ match websocket session with
           | Some ws =>
               w' = with_sessions (delete sessionId) (record_call ws ws_close_call w)
               /\ socket_calls w' ws = socket_calls w ws ++ [ws_close_call]
               /\ forall ws', ws <> ws' -> socket_calls w' ws' = socket_calls w ws'
           | None => socket_log w' = socket_log w
           end
  end.
Proof.
  destruct (sessions w !! sessionId) as [session|] eqn:E;
    [|by apply deleteSession_missing].
  eexists. split; [by apply deleteSession_present|].
  destruct (websocket session) as [ws|]; cbn.
  - repeat split; try done.
    + apply lookup_delete_eq.
    + apply (socket_calls_record_eq w).
    + intros ws' Hne. by apply (socket_calls_record_ne w).
  - repeat split; try done. apply lookup_delete_eq.
Qed.

(** The state after deleting, in order, the sessions named in [ids]. *)
Lemma for_each_delete_cons id ids w :
  snd (for_each (id :: ids) (fun id => deleteSession id ;; mret tt) w)
  = snd (for_each ids (fun id => deleteSession id ;; mret tt) (snd (deleteSession id w))).
Proof. cbn [for_each]. run. by destruct (deleteSession id w). Qed.

Lemma deleteSession_sessions w id :
  sessions (snd (deleteSession id w)) = delete id (sessions w).
Proof.
  destruct (sessions w !! id) as [s|] eqn:E.
  - rewrite (deleteSession_present _ _ _ E). cbn. by destruct (websocket s).
  - rewrite (deleteSession_missing _ _ E). cbn. symmetry. by apply delete_id.
Qed.

Lemma deleteSession_frame w id :
  connections (snd (deleteSession id w)) = connections w
  /\ ttl (snd (deleteSession id w)) = ttl w
  /\ wall (snd (deleteSession id w)) = wall w
  /\ reads (snd (deleteSession id w)) = reads w.
Proof.
  destruct (sessions w !! id) as [s|] eqn:E.
  - rewrite (deleteSession_present _ _ _ E). cbn. by destruct (websocket s).
  - by rewrite (deleteSession_missing _ _ E).
Qed.

(** What a socket was asked to do is never forgotten by a deletion. *)
Lemma deleteSession_calls_grow w id ws c :
  c ∈ socket_calls w ws -> c ∈ socket_calls (snd (deleteSession id w)) ws.
Proof.
  intros Hc. destruct (sessions w !! id) as [s|] eqn:E.
  - rewrite (deleteSession_present _ _ _ E). cbn.
    destruct (websocket s) as [ws0|]; [|done].
    change (c ∈ socket_calls (record_call ws0 ws_close_call w) ws).
    destruct (decide (ws0 = ws)) as [->|Hne].
    + rewrite socket_calls_record_eq. apply elem_of_app. by left.
    + by rewrite socket_calls_record_ne.
  - by rewrite (deleteSession_missing _ _ E).
Qed.

Lemma deleteSession_closes w id s ws :
  sessions w !! id = Some s -> websocket s = Some ws ->
  ws_close_call ∈ socket_calls (snd (deleteSession id w)) ws.
Proof.
  intros E Hws. rewrite (deleteSession_present _ _ _ E), Hws. cbn.
  change (ws_close_call ∈ socket_calls (record_call ws ws_close_call w) ws).
  rewrite socket_calls_record_eq. apply elem_of_app. right. by apply list_elem_of_singleton.
Qed.

Lemma deleteSession_calls_other w id ws :
  (forall s, sessions w !! id = Some s -> websocket s <> Some ws) ->
  socket_calls (snd (deleteSession id w)) ws = socket_calls w ws.
Proof.
  intros H. destruct (sessions w !! id) as [s|] eqn:E.
  - rewrite (deleteSession_present _ _ _ E). cbn.
    destruct (websocket s) as [ws0|] eqn:Hws; [|done].
    change (socket_calls (record_call ws0 ws_close_call w) ws = socket_calls w ws).
    apply socket_calls_record_ne. intros ->. by apply (H s).
  - by rewrite (deleteSession_missing _ _ E).
Qed.

Lemma for_each_delete_spec ids w :
  let w' := snd (for_each ids (fun id => deleteSession id ;; mret tt) w) in
  (forall id, sessions w' !! id = if decide (id ∈ ids) then None else sessions w !! id)
  /\ connections w' = connections w
  /\ (forall ws c, c ∈ socket_calls w ws -> c ∈ socket_calls w' ws)
  /\ (forall id s ws, id ∈ ids -> sessions w !! id = Some s -> websocket s = Some ws ->
        ws_close_call ∈ socket_calls w' ws)
  /\ (forall ws,
        (forall id s, id ∈ ids -> sessions w !! id = Some s -> websocket s <> Some ws) ->
        socket_calls w' ws = socket_calls w ws).
Proof.
  revert w. induction ids as [|x ids IH]; intros w; cbv zeta.
  - cbn. repeat split; try done.
    intros id s ws Hin. by apply elem_of_nil in Hin.
  - rewrite for_each_delete_cons.
    specialize (IH (snd (deleteSession x w))). cbv zeta in IH.
    destruct IH as (IHs & IHc & IHg & IHcl & IHo).
    set (w' := snd (for_each ids _ _)) in *.
    pose proof (deleteSession_sessions w x) as Hs.
    destruct (deleteSession_frame w x) as (Hconn & _).
    split; [|split; [|split; [|split]]].
    + intros id. rewrite IHs, Hs.
      destruct (decide (id ∈ ids)) as [H1|H1], (decide (id ∈ x :: ids)) as [H2|H2];
        try done.
      * exfalso. apply H2. by apply list_elem_of_further.
      * apply elem_of_cons in H2 as [->|H2]; [apply lookup_delete_eq | done].
      * apply lookup_delete_ne. intros ->. apply H2. apply list_elem_of_here.
    + by rewrite IHc.
    + intros ws c Hc. apply IHg. by apply deleteSession_calls_grow.
    + intros id s ws Hin Hid Hws.
      destruct (decide (id = x)) as [->|Hne].
      * apply IHg. by apply (deleteSession_closes w x s).
      * apply elem_of_cons in Hin as [?|Hin]; [done|].
        apply (IHcl id s ws Hin); [|done]. by rewrite Hs, lookup_delete_ne.
    + intros ws Hnot. rewrite IHo.
      * apply deleteSession_calls_other. intros s E. apply (Hnot x s); [|done].
        apply list_elem_of_here.
      * intros id s Hin Hid. rewrite Hs in Hid.
        apply lookup_delete_Some in Hid as [Hne Hid].
        apply (Hnot id s); [|done]. by apply list_elem_of_further.
Qed.

Lemma elem_of_expired_ids now limit (m : gmap string Session) id :
  id ∈ expired_ids now limit (map_to_list m)
  <-> exists s, m !! id = Some s /\ limit < now - lastActivityAt s.
Proof.
  unfold expired_ids. rewrite list_elem_of_fmap. split.
  - intros ([id' s] & -> & Hin). apply list_elem_of_filter in Hin as [Hexp Hin].
    apply elem_of_map_to_list in Hin. by exists s.
  - intros (s & Hs & Hexp). exists (id, s). split; [done|].
    apply list_elem_of_filter. split; [done|]. by apply elem_of_map_to_list.
Qed.

(** C5. With [now] the clock reading of the sweep: a stored session is in
    the store afterwards, unchanged, exactly when [now - lastActivityAt <=
    ttl]; the others are gone and, as [deleteSession] does, the socket each
    of them held has been closed; no other socket is touched. *)
Theorem cleanupExpired_exact w :
  let now := wall w (reads w) in
  let w' := snd (cleanupExpired w) in
  (forall id s, sessions w !! id = Some s -> now - lastActivityAt s > ttl w ->
     sessions w' !! id = None)
  /\ (forall id s, sessions w !! id = Some s -> now - lastActivityAt s <= ttl w ->
     sessions w' !! id = Some s)
  /\ (forall id, sessions w !! id = None -> sessions w' !! id = None)
  /\ (forall id s ws, sessions w !! id = Some s -> now - lastActivityAt s > ttl w ->
        websocket s = Some ws -> ws_close_call ∈ socket_calls w' ws)
  /\ (forall ws,
        (forall id s, sessions w !! id = Some s -> now - lastActivityAt s > ttl w ->
           websocket s <> Some ws) ->
        socket_calls w' ws = socket_calls w ws)
  /\ connections w' = connections w.
Proof.
  cbv zeta. unfold cleanupExpired. run.
  set (now := wall w (reads w)).
  set (w0 := mkWorld _ _ _ _ _ _).
  set (ids := expired_ids now (ttl w) (map_to_list (sessions w))).
  destruct (for_each_delete_spec ids w0) as (Hs & Hc & _ & Hcl & Ho). cbv zeta in *.
  destruct (for_each ids _ w0) as [[] w'] eqn:E. cbn in *.
  assert (Hin : forall id, id ∈ ids <->
            exists s, sessions w !! id = Some s /\ ttl w < now - lastActivityAt s)
    by (intros id; apply elem_of_expired_ids).
  split; [|split; [|split; [|split; [|split]]]].
  - intros id s Hid Hexp. rewrite Hs, decide_True; [done|].
    apply Hin. exists s. split; [done|lia].
  - intros id s Hid Hexp. rewrite Hs, decide_False; [done|].
    intros (s' & Hs' & Hexp')%Hin. rewrite Hid in Hs'. injection Hs' as <-. lia.
  - intros id Hid. rewrite Hs. by case_decide.
  - intros id s ws Hid Hexp Hws. apply (Hcl id s ws); [|done|done].
    apply Hin. exists s. split; [done|lia].
  - intros ws Hnot. rewrite Ho; [done|].
    intros id s (s' & Hs' & Hexp')%Hin Hid. cbn in Hid. rewrite Hid in Hs'.
    injection Hs' as <-. apply (Hnot id s); [done|lia].
  - done.
Qed.

Lemma getOrCreate_idempotent_witness :
  getOrCreate "test-1" (snd (getOrCreate "test-1" fresh)) = getOrCreate "test-1" fresh.
Proof.
  exact (proj1 (proj2 (getOrCreate_idempotent fresh "test-1"
           (fst (getOrCreate "test-1" fresh)) (snd (getOrCreate "test-1" fresh))
           ltac:(reflexivity)))).
Defined.

(** C6 as stated does not hold: the hub is not consulted. With a channel
    registered in the hub for a session whose own [websocket] field is
    empty, [deleteSession] returns [true] and removes the session, but the
    channel receives no call and the hub still holds it. *)
Lemma deleteSession_ignores_hub :
  connections hub_only_connection !! "test" = Some 7%nat
  /\ is_Some (sessions hub_only_connection !! "test")
  /\ fst (deleteSession "test" hub_only_connection) = true
  /\ sessions (snd (deleteSession "test" hub_only_connection)) !! "test" = None
  /\ socket_calls (snd (deleteSession "test" hub_only_connection)) 7%nat = []
  /\ connections (snd (deleteSession "test" hub_only_connection)) !! "test" = Some 7%nat.
Proof. repeat split; try reflexivity. eexists. reflexivity. Qed.

Lemma deleteSession_result_witness :
  deleteSession "missing" fresh = (false, fresh)
  /\ fst (deleteSession "old" sweep_scene) = true
  /\ socket_calls (snd (deleteSession "old" sweep_scene)) 3%nat = [ws_close_call].
Proof.
  split; [exact (deleteSession_result fresh "missing")|].
  destruct (deleteSession_result sweep_scene "old") as (w' & -> & _ & _ & _ & _ & Hcalls & _).
  split; [reflexivity|]. exact Hcalls.
Defined.

Lemma cleanupExpired_exact_witness :
  sessions (snd (cleanupExpired sweep_scene)) !! "old" = None
  /\ sessions (snd (cleanupExpired sweep_scene)) !! "live"
     = Some (mkSession "live" 0 5000 ∅ None [])
  /\ ws_close_call ∈ socket_calls (snd (cleanupExpired sweep_scene)) 3%nat.
Proof.
  destruct (cleanupExpired_exact sweep_scene) as (Hgone & Hkept & _ & Hclosed & _).
  split; [|split].
  - apply (Hgone "old" (mkSession "old" 0 0 ∅ (Some 3%nat) [])); [reflexivity|].
    vm_compute. reflexivity.
  - apply (Hkept "live" (mkSession "live" 0 5000 ∅ None [])); [reflexivity|].
    vm_compute. discriminate.
  - apply (Hclosed "old" (mkSession "old" 0 0 ∅ (Some 3%nat) []) 3%nat);
      [reflexivity | vm_compute; reflexivity | reflexivity].
Defined.

End session_facts.

(** ** The connection hub *)

Section hub_facts.
Import WebSocketHub.

Lemma register_lookup w sessionId ws other :
  connections (snd (register sessionId ws w)) !! other
  = if decide (sessionId = other) then Some ws else connections w !! other.
Proof. unfold register. run. apply lookup_insert. Qed.

Lemma unregister_lookup w sessionId other :
  connections (snd (unregister sessionId w)) !! other
  = if decide (sessionId = other) then None else connections w !! other.
Proof. unfold unregister. run. apply lookup_delete. Qed.

Lemma hub_call_frame c w :
  sessions (snd (hub_call c w)) = sessions w
  /\ socket_log (snd (hub_call c w)) = socket_log w.
Proof. by destruct c. Qed.

Lemma hub_calls_cons c cs w :
  snd (for_each (c :: cs) hub_call w) = snd (for_each cs hub_call (snd (hub_call c w))).
Proof. cbn [for_each]. run. by destruct (hub_call c w). Qed.

Lemma hub_calls_lookup cs w sessionId :
  connections (snd (for_each cs hub_call w)) !! sessionId
  = last_registered sessionId cs (connections w !! sessionId).
Proof.
  revert w. induction cs as [|c cs IH]; intros w; [done|].
  rewrite hub_calls_cons, IH. destruct c as [sid ws|sid]; cbn [last_registered hub_call].
  - by rewrite register_lookup.
  - by rewrite unregister_lookup.
Qed.

Lemma hub_calls_frame cs w :
  sessions (snd (for_each cs hub_call w)) = sessions w
  /\ socket_log (snd (for_each cs hub_call w)) = socket_log w.
Proof.
  revert w. induction cs as [|c cs IH]; intros w; [done|].
  rewrite hub_calls_cons. destruct (IH (snd (hub_call c w))) as [-> ->].
  apply hub_call_frame.
Qed.

(** A list of pairs with distinct first components has at most one pair
    for each. *)
Lemma at_most_one_with_key {V} (key : string) (l : list (string * V)) :
  NoDup l.*1 -> (length (filter (fun entry => entry.1 = key) l) <= 1)%nat.
Proof.
  induction l as [|[k v] l IH]; intros Hnd; [cbn; lia|].
  rewrite fmap_cons in Hnd. apply NoDup_cons in Hnd as [Hk Hnd]. rewrite filter_cons.
  cbn [fst]. case_decide as Hkey; [|by apply IH]. subst k. cbn [length].
  destruct (filter (fun entry : string * V => entry.1 = key) l) as [|[k' v'] rest] eqn:Ef;
    [cbn; lia|].
  exfalso. apply Hk.
  assert (Hin : (k', v') ∈ filter (fun entry : string * V => entry.1 = key) l)
    by (rewrite Ef; apply list_elem_of_here).
  apply list_elem_of_filter in Hin as [Heq Hin]. cbn in Heq. subst k'.
  apply list_elem_of_fmap. by exists (key, v').
Qed.

(** C9. After any sequence of [register] and [unregister] calls the hub
    holds at most one entry for a session id, and it is the channel of the
    last [register] for that id unless an [unregister] for it came later;
    [register] installs its channel in place of whatever was there,
    [unregister] leaves none, neither touches another id's entry, and no
    socket is called in the process. *)
Theorem hub_single_channel w cs sessionId :
  let w' := snd (for_each cs hub_call w) in
  (length (entries_for sessionId (connections w')) <= 1)%nat
  /\ connections w' !! sessionId = last_registered sessionId cs (connections w !! sessionId)
  /\ socket_log w' = socket_log w
  /\ (forall ws, connections (snd (register sessionId ws w')) !! sessionId = Some ws)
  /\ connections (snd (unregister sessionId w')) !! sessionId = None
  /\ (forall ws other, other <> sessionId ->
        connections (snd (register sessionId ws w')) !! other = connections w' !! other
        /\ connections (snd (unregister sessionId w')) !! other = connections w' !! other).
Proof.
  cbv zeta. split; [|split; [|split; [|split; [|split]]]].
  - apply at_most_one_with_key, NoDup_fst_map_to_list.
  - apply hub_calls_lookup.
  - apply hub_calls_frame.
  - intros ws. rewrite register_lookup. by rewrite decide_True.
  - rewrite unregister_lookup. by rewrite decide_True.
  - intros ws other Hne. rewrite register_lookup, unregister_lookup.
    by rewrite !decide_False.
Qed.

Lemma sendAction_disconnected w sessionId action params :
  connections w !! sessionId = None ->
  sendAction sessionId action params w = (false, w).
Proof. intros H. unfold sendAction. run. by rewrite H. Qed.

Lemma sendAction_connected w sessionId action params ws :
  connections w !! sessionId = Some ws ->
  sendAction sessionId action params w
  = (true, record_call ws (ws_send_call (JSON_stringify (action_envelope action params))) w).
Proof. intros H. unfold sendAction. run. by rewrite H. Qed.

Lemma sendData_disconnected w sessionId data :
  connections w !! sessionId = None ->
  sendData sessionId data w = (false, w).
Proof. intros H. unfold sendData. run. by rewrite H. Qed.

Lemma sendData_connected w sessionId data ws :
  connections w !! sessionId = Some ws ->
  sendData sessionId data w
  = (true, record_call ws (ws_send_call (JSON_stringify (data_envelope data))) w).
Proof. intros H. unfold sendData. run. by rewrite H. Qed.

Lemma record_call_one_write ws message w :
  one_write ws message w (record_call ws (ws_send_call (JSON_stringify message)) w).
Proof.
  exists (JSON_stringify message). repeat split; try done.
  - apply socket_calls_record_eq.
  - intros other Hne. by apply socket_calls_record_ne.
Qed.

(** C4. [sendAction] and [sendData] return [false] exactly when the hub
    has no connection for the session id, and then nothing changes. When
    channel [ws] is registered they return [true] and [ws] receives exactly
    one write, whose text parses to the envelope built from the arguments;
    in particular this is so right after [register]. *)
Theorem send_needs_connection w sessionId action params data :
  (fst (sendAction sessionId action params w) = false <-> connections w !! sessionId = None)
  /\ (fst (sendData sessionId data w) = false <-> connections w !! sessionId = None)
  /\ (connections w !! sessionId = None ->
        sendAction sessionId action params w = (false, w)
        /\ sendData sessionId data w = (false, w))
  /\ (forall ws, connections w !! sessionId = Some ws ->
        fst (sendAction sessionId action params w) = true
        /\ one_write ws (action_envelope action params) w
             (snd (sendAction sessionId action params w))
        /\ fst (sendData sessionId data w) = true
        /\ one_write ws (data_envelope data) w (snd (sendData sessionId data w)))
  /\ (forall ws,
        let w1 := snd (register sessionId ws w) in
        fst (sendAction sessionId action params w1) = true
        /\ one_write ws (action_envelope action params) w1
             (snd (sendAction sessionId action params w1))
        /\ fst (sendData sessionId data w1) = true
        /\ one_write ws (data_envelope data) w1 (snd (sendData sessionId data w1))).
Proof.
  assert (Hconn : forall w0 ws, connections w0 !! sessionId = Some ws ->
            fst (sendAction sessionId action params w0) = true
            /\ one_write ws (action_envelope action params) w0
                 (snd (sendAction sessionId action params w0))
            /\ fst (sendData sessionId data w0) = true
            /\ one_write ws (data_envelope data) w0 (snd (sendData sessionId data w0))).
  { intros w0 ws H. rewrite (sendAction_connected _ _ _ _ _ H), (sendData_connected _ _ _ _ H).
    cbn. repeat split; try done; apply record_call_one_write. }
  split; [|split; [|split; [|split]]].
  - destruct (connections w !! sessionId) as [ws|] eqn:E.
    + rewrite (sendAction_connected _ _ _ _ _ E). by split.
    + by rewrite (sendAction_disconnected _ _ _ _ E).
  - destruct (connections w !! sessionId) as [ws|] eqn:E.
    + rewrite (sendData_connected _ _ _ _ E). by split.
    + by rewrite (sendData_disconnected _ _ _ E).
  - intros E. split; [by apply sendAction_disconnected | by apply sendData_disconnected].
  - intros ws. apply Hconn.
  - intros ws. cbv zeta. apply Hconn. rewrite register_lookup. by rewrite decide_True.
Qed.

Lemma hub_single_channel_witness :
  connections (snd (for_each [call_register "s1" 1%nat; call_register "s1" 2%nat] hub_call fresh))
    !! "s1" = Some 2%nat
  /\ connections (snd (for_each [call_register "s1" 1%nat; call_unregister "s1"] hub_call fresh))
       !! "s1" = None.
Proof.
  split.
  - exact (proj1 (proj2
      (hub_single_channel fresh [call_register "s1" 1%nat; call_register "s1" 2%nat] "s1"))).
  - exact (proj1 (proj2
      (hub_single_channel fresh [call_register "s1" 1%nat; call_unregister "s1"] "s1"))).
Defined.

Lemma send_needs_connection_witness :
  let params := Some (JsObject [("reason", JsString "t")]) in
  let w := snd (register "s1" 7%nat fresh) in
  sendAction "s1" "logout" params fresh = (false, fresh)
  /\ fst (sendAction "s1" "logout" params w) = true
  /\ one_write 7%nat (action_envelope "logout" params) w (snd (sendAction "s1" "logout" params w)).
Proof.
  intros params w.
  destruct (send_needs_connection fresh "s1" "logout" params None) as (_ & _ & Hnone & _).
  destruct (send_needs_connection w "s1" "logout" params None) as (_ & _ & _ & Hsome & _).
  split; [exact (proj1 (Hnone ltac:(reflexivity)))|].
  destruct (Hsome 7%nat ltac:(reflexivity)) as (Hret & Hwrite & _).
  split; [exact Hret | exact Hwrite].
Defined.

End hub_facts.

(** ** The data plane *)

Section server_facts.
Import Server.

Lemma dataPlane_unconfigured w sessionId wildcard method :
  let key := EndpointRegistry.makeKey method ("/" +:+ wildcard) in
  (endpoints_of w sessionId !! key = None
   \/ exists config, endpoints_of w sessionId !! key = Some config /\ responses config = []) ->
  exists record w',
    dataPlane sessionId wildcard method w
      = (mkReply 404 [] (Some (not_configured method ("/" +:+ wildcard))), w')
    /\ history_of w' sessionId = history_of w sessionId ++ [record]
    /\ endpoints_of w' sessionId = endpoints_of w sessionId
    /\ configured record = false /\ rr_status record = 404.
Proof.
  cbv zeta. unfold endpoints_of, history_of, EndpointRegistry.makeKey. intros H.
  unfold dataPlane, SessionManager.getOrCreate, SessionManager.updateActivity, on_session.
  run. 
  destruct (sessions w !! sessionId) as [session|] eqn:E; cbn.
  - rewrite E. cbn. rewrite lookup_alter_eq, E. cbn. cbn in H.
    destruct H as [-> | (config & -> & ->)].
    + eexists _, _. split; [reflexivity|]. cbn.
      rewrite !lookup_alter_eq, E. by cbn.
    + eexists _, _. split; [reflexivity|]. cbn.
      rewrite !lookup_alter_eq, E. by cbn.
  - rewrite lookup_insert_eq. cbn. rewrite lookup_alter_eq, lookup_insert_eq. cbn.
    rewrite lookup_empty.
    eexists _, _. split; [reflexivity|]. cbn.
    rewrite !lookup_alter_eq, lookup_insert_eq. by cbn.
Qed.

Lemma slice_last_length {A} (count : nat) (l : list A) :
  (length (slice_last count l) <= count)%nat.
Proof. unfold slice_last. rewrite length_drop. lia. Qed.

(** A request for a configured endpoint is answered as
    [EndpointRegistry.getNextResponse] on the session's endpoints would
    answer it, and leaves at most 1000 records. *)
Lemma dataPlane_configured w sessionId wildcard method config :
  let path := "/" +:+ wildcard in
  let key := EndpointRegistry.makeKey method path in
  endpoints_of w sessionId !! key = Some config ->
  responses config <> [] ->
  exists response record w',
    fst (EndpointRegistry.getNextResponse (endpoints_of w sessionId) method path)
      = Some response
    /\ dataPlane sessionId wildcard method w
       = (mkReply (status response) (default [] (headers response))
                  (Some (default JsNull (body response))), w')
    /\ endpoints_of w' sessionId
       = snd (EndpointRegistry.getNextResponse (endpoints_of w sessionId) method path)
    /\ history_of w' sessionId
       = (if (1000 <? length (history_of w sessionId ++ [record]))%nat
          then slice_last 1000 (history_of w sessionId ++ [record])
          else history_of w sessionId ++ [record])
    /\ (length (history_of w' sessionId) <= 1000)%nat
    /\ configured record = true /\ rr_status record = status response.
Proof.
  cbv zeta. intros Hcfg Hne.
  rewrite (getNextResponse_step _ _ _ _ Hcfg Hne). cbn [fst snd].
  destruct (sessions w !! sessionId) as [session|] eqn:E;
    unfold endpoints_of in Hcfg; rewrite E in Hcfg; cbn in Hcfg;
    [|by rewrite lookup_empty in Hcfg].
  set (index := Nat.min (callCount config) (length (responses config) - 1)).
  destruct (responses config !! index) as [response|] eqn:Hresp.
  2: { apply lookup_ge_None in Hresp. destruct (responses config); [done|].
       cbn in *. lia. }
  exists response.
  unfold dataPlane, SessionManager.getOrCreate, SessionManager.updateActivity, on_session.
  run. rewrite E. cbn. rewrite E. cbn. rewrite lookup_alter_eq, E. cbn.
  unfold EndpointRegistry.makeKey in Hcfg. rewrite Hcfg.
  destruct (responses config) as [|first rest] eqn:Hrs; [done|].
  fold index. rewrite (nth_lookup _ _ first), Hresp. cbn.
  eexists _, _. split; [reflexivity|]. split; [reflexivity|].
  unfold endpoints_of, history_of. cbn.
  rewrite !lookup_alter_eq, E. cbn.
  assert (Hhist : forall s : Session,
            requestHistory (trim_history s)
            = if (1000 <? length (requestHistory s))%nat
              then slice_last 1000 (requestHistory s) else requestHistory s).
  { intros s. unfold trim_history. by destruct (1000 <? length (requestHistory s))%nat. }
  assert (Hends : forall s : Session, endpoints (trim_history s) = endpoints s).
  { intros s. unfold trim_history. by destruct (1000 <? length (requestHistory s))%nat. }
  rewrite Hhist, Hends. cbn -[Nat.ltb slice_last]. repeat split; try done.
  destruct (1000 <? length _)%nat eqn:Hlen.
  - apply slice_last_length.
  - by apply Nat.ltb_ge in Hlen.
Qed.

(** Request after request, the data plane serves a configured endpoint
    with what [getNextResponse] returns call after call on the session's
    endpoints, and leaves them as those calls would. *)
Lemma dataPlaneMany_configured times w sessionId wildcard method config :
  endpoints_of w sessionId !! EndpointRegistry.makeKey method ("/" +:+ wildcard) = Some config ->
  responses config <> [] ->
  Some <$> fst (dataPlaneMany times sessionId wildcard method w)
  = fmap reply_of <$> fst (callMany times (endpoints_of w sessionId) method ("/" +:+ wildcard))
  /\ endpoints_of (snd (dataPlaneMany times sessionId wildcard method w)) sessionId
     = snd (callMany times (endpoints_of w sessionId) method ("/" +:+ wildcard)).
Proof.
  revert w config. induction times as [|times IH]; intros w config Hcfg Hne; [done|].
  destruct (dataPlane_configured w sessionId wildcard method config Hcfg Hne)
    as (response & record & w1 & Hnext & Hrun & Hends & _).
  cbn [dataPlaneMany callMany]. unfold mbind, M_bind, mret, M_ret. rewrite Hrun.
  destruct (EndpointRegistry.getNextResponse (endpoints_of w sessionId) method
              ("/" +:+ wildcard)) as [r reg1] eqn:Hstep.
  cbn in Hnext, Hends. subst r reg1.
  rewrite (getNextResponse_step _ _ _ _ Hcfg Hne) in Hstep. injection Hstep as _ Hreg.
  assert (Hcfg1 : endpoints_of w1 sessionId
                    !! EndpointRegistry.makeKey method ("/" +:+ wildcard)
                  = Some (EndpointRegistry.bump config))
    by (rewrite <- Hreg; apply lookup_insert_eq).
  specialize (IH w1 (EndpointRegistry.bump config) Hcfg1 Hne).
  destruct (dataPlaneMany times sessionId wildcard method w1) as [rs w2].
  destruct (callMany times _ method ("/" +:+ wildcard)) as [os reg2].
  cbn in IH |- *. destruct IH as [-> ->]. done.
Qed.

(** The configuring request stores what [EndpointRegistry.configure]
    stores. *)
Lemma postEndpoints_configures w sessionId method path responses :
  reply_code (fst (postEndpoints sessionId method path responses w)) = 201
  /\ endpoints_of (snd (postEndpoints sessionId method path responses w)) sessionId
     = EndpointRegistry.configure (endpoints_of w sessionId)
         (mkEndpointConfig method path responses 0).
Proof.
  unfold postEndpoints, SessionManager.getOrCreate, SessionManager.updateActivity, on_session.
  run. unfold endpoints_of, EndpointRegistry.configure, EndpointRegistry.makeKey.
  destruct (sessions w !! sessionId) as [session|] eqn:E; cbn.
  - rewrite E. cbn. by rewrite !lookup_alter_eq, E.
  - rewrite lookup_insert_eq. cbn. by rewrite !lookup_alter_eq, lookup_insert_eq.
Qed.

Lemma dataPlaneMany_succ times sessionId wildcard method w :
  snd (dataPlaneMany (S times) sessionId wildcard method w)
  = snd (dataPlaneMany times sessionId wildcard method
           (snd (dataPlane sessionId wildcard method w))).
Proof.
  cbn [dataPlaneMany]. unfold mbind, M_bind, mret, M_ret.
  destruct (dataPlane sessionId wildcard method w) as [r w1]. cbn.
  by destruct (dataPlaneMany times sessionId wildcard method w1).
Qed.

(** C2 fails on the not-found path. A request for an endpoint that is not
    configured appends its record and returns before the trimming of the
    history, which only the configured path reaches: 1001 such requests to
    a fresh server leave 1001 records in the session's history, all marked
    unconfigured. *)
Theorem dataPlane_unconfigured_history_exceeds_bound :
  let w := snd (dataPlaneMany 1001 "s1" "api/missing" "GET" fresh) in
  length (history_of w "s1") = 1001%nat
  /\ (1000 < length (history_of w "s1"))%nat
  /\ Forall (fun record => configured record = false /\ rr_status record = 404)
       (history_of w "s1").
Proof.
  cbv zeta.
  assert (H : forall times w,
            endpoints_of w "s1" !! EndpointRegistry.makeKey "GET" ("/" +:+ "api/missing") = None ->
            let w' := snd (dataPlaneMany times "s1" "api/missing" "GET" w) in
            length (history_of w' "s1") = (length (history_of w "s1") + times)%nat
            /\ (Forall (fun record => configured record = false /\ rr_status record = 404)
                  (history_of w "s1") ->
                Forall (fun record => configured record = false /\ rr_status record = 404)
                  (history_of w' "s1"))).
  { induction times as [|times IH]; intros w Hkey; cbv zeta.
    - cbn. split; [lia|done].
    - destruct (dataPlane_unconfigured w "s1" "api/missing" "GET" (or_introl Hkey))
        as (record & w1 & Hrun & Hhist & Hends & Hflag & Hstatus).
      rewrite dataPlaneMany_succ, Hrun. cbn [snd].
      specialize (IH w1). rewrite Hends in IH. specialize (IH Hkey). cbv zeta in IH.
      destruct IH as [IHlen IHall]. rewrite Hhist, length_app in IHlen. cbn in IHlen.
      split; [lia|]. intros Hall. apply IHall. rewrite Hhist.
      apply Forall_app. split; [done|]. by apply Forall_singleton. }
  destruct (H 1001%nat fresh eq_refl) as [Hlen Hall]. cbv zeta in *.
  change (length (history_of fresh "s1")) with 0%nat in Hlen.
  split; [exact Hlen|]. split; [rewrite Hlen; lia|]. apply Hall. constructor.
Qed.

End server_facts.

(** ** More on the endpoint registry *)

Section registry_more.
Import EndpointRegistry.
Implicit Types (reg : Registry) (config : EndpointConfig).

Lemma keyed_registry_call reg c : keyed reg -> keyed (registry_call reg c).
Proof.
  intros Hk key config. destruct c as [new_config|m p|m p|]; cbn.
  - unfold configure. intros [[<- <-]|[_ H]]%lookup_insert_Some; [done|by apply Hk].
  - unfold getNextResponse. destruct (get reg m p) as [stored|] eqn:Hget; [|by apply Hk].
    destruct (length (responses stored) =? 0)%nat; [by apply Hk|]. cbn.
    intros [[<- <-]|[_ H]]%lookup_insert_Some; [|by apply Hk].
    by apply (Hk _ stored).
  - intros [_ H]%lookup_delete_Some. by apply Hk.
  - unfold clearAll. by rewrite lookup_empty.
Qed.

Lemma keyed_run calls : keyed (foldl registry_call new calls).
Proof.
  assert (H : forall reg, keyed reg -> keyed (foldl registry_call reg calls)).
  { induction calls as [|c calls IH]; intros reg Hk; [done|].
    cbn. apply IH. by apply keyed_registry_call. }
  apply H. intros key config. unfold new. by rewrite lookup_empty.
Qed.

Lemma elem_of_registry_list reg config :
  config ∈ EndpointRegistry_list reg <-> exists key, reg !! key = Some config.
Proof.
  unfold EndpointRegistry_list. rewrite list_elem_of_fmap. split.
  - intros ([key c] & -> & Hin). exists key. by apply elem_of_map_to_list.
  - intros (key & H). exists (key, config). split; [done|]. by apply elem_of_map_to_list.
Qed.

(** Whatever calls a registry has received since it was created, the
    configurations [list] returns are exactly those [get] finds under their
    own method and path. *)
Theorem registry_list_get calls config :
  let reg := foldl registry_call new calls in
  config ∈ EndpointRegistry_list reg <-> get reg (method config) (path config) = Some config.
Proof.
  cbv zeta. rewrite elem_of_registry_list. split.
  - intros (key & H). pose proof (keyed_run calls key config H) as ->. exact H.
  - intros H. by eexists.
Qed.

(** [clear] tells whether the key was configured and removes its entry:
    afterwards the endpoint answers null, a second [clear] returns false,
    and the entries of other keys are as before. *)
Theorem clear_removes reg m p :
  (fst (clear reg m p) = true <-> is_Some (get reg m p))
  /\ get (snd (clear reg m p)) m p = None
  /\ getNextResponse (snd (clear reg m p)) m p = (None, snd (clear reg m p))
  /\ fst (clear (snd (clear reg m p)) m p) = false
  /\ (forall m' p', makeKey m' p' <> makeKey m p ->
        get (snd (clear reg m p)) m' p' = get reg m' p').
Proof.
  unfold clear, get. cbn.
  assert (Hgone : delete (makeKey m p) reg !! makeKey m p = None) by apply lookup_delete_eq.
  split; [apply bool_decide_eq_true|]. split; [done|]. split; [|split].
  - unfold getNextResponse, get. by rewrite Hgone.
  - apply bool_decide_eq_false. rewrite Hgone. by intros [? ?].
  - intros m' p' Hne. by apply lookup_delete_ne.
Qed.

(** What a run of calls for one endpoint returns depends on the entry of
    that endpoint alone. *)
Lemma callMany_ext j reg1 reg2 m p :
  get reg1 m p = get reg2 m p ->
  fst (callMany j reg1 m p) = fst (callMany j reg2 m p).
Proof.
  revert reg1 reg2. induction j as [|j IH]; intros reg1 reg2 Heq; [done|].
  cbn [callMany]. unfold getNextResponse.
  assert (Heq2 : get reg2 m p = get reg1 m p) by done. rewrite Heq2. clear Heq.
  destruct (get reg1 m p) as [config|] eqn:Hget.
  - destruct (length (responses config) =? 0)%nat.
    + specialize (IH reg1 reg2 ltac:(congruence)).
      destruct (callMany j reg1 m p), (callMany j reg2 m p). cbn in *. by rewrite IH.
    + specialize (IH (<[makeKey m p := bump config]> reg1)
                     (<[makeKey m p := bump config]> reg2)).
      unfold get in IH. rewrite !lookup_insert_eq in IH. specialize (IH eq_refl).
      destruct (callMany j (<[_ := _]> reg1) m p), (callMany j (<[_ := _]> reg2) m p).
      cbn in *. by rewrite IH.
  - specialize (IH reg1 reg2 ltac:(congruence)).
    destruct (callMany j reg1 m p), (callMany j reg2 m p). cbn in *. by rewrite IH.
Qed.

Lemma callMany_other_keys j reg m p key :
  key <> makeKey m p -> snd (callMany j reg m p) !! key = reg !! key.
Proof.
  intros Hne. revert reg. induction j as [|j IH]; intros reg; [done|].
  cbn [callMany]. pose proof (getNextResponse_other_keys reg m p key Hne) as Hstep.
  destruct (getNextResponse reg m p) as [r reg1]. specialize (IH reg1).
  destruct (callMany j reg1 m p) as [rs reg2]. cbn in *. by rewrite IH.
Qed.

(** The counters of different endpoints are independent: calls made for
    one endpoint change neither the entry of another endpoint nor what any
    later run of calls for that other endpoint returns. *)
Theorem counters_independent reg mA pA mB pB i j :
  makeKey mA pA <> makeKey mB pB ->
  get (snd (callMany i reg mA pA)) mB pB = get reg mB pB
  /\ fst (callMany j (snd (callMany i reg mA pA)) mB pB) = fst (callMany j reg mB pB).
Proof.
  intros Hne.
  assert (H : get (snd (callMany i reg mA pA)) mB pB = get reg mB pB).
  { unfold get. apply callMany_other_keys. congruence. }
  split; [done|]. by apply callMany_ext.
Qed.

Lemma counters_independent_witness :
  let reg := configure (configure new demo_config)
               (mkEndpointConfig "POST" "/api/test" [demo_200; demo_500] 0) in
  fst (callMany 2 (snd (callMany 5 reg "GET" "/api/test")) "POST" "/api/test")
  = [Some demo_200; Some demo_500].
Proof.
  intros reg.
  rewrite (proj2 (counters_independent reg "GET" "/api/test" "POST" "/api/test" 5 2
                    ltac:(discriminate))).
  reflexivity.
Defined.

(** [list] has one entry per configured key: configuring a key that is
    already there leaves its length as it is, configuring a new key adds
    one, and [getNextResponse] never changes it. *)
Theorem registry_list_length reg config m p :
  length (EndpointRegistry_list (configure reg config))
  = (if bool_decide (is_Some (get reg (method config) (path config)))
     then length (EndpointRegistry_list reg)
     else S (length (EndpointRegistry_list reg)))
  /\ length (EndpointRegistry_list (snd (getNextResponse reg m p)))
     = length (EndpointRegistry_list reg).
Proof.
  unfold EndpointRegistry_list. rewrite !length_fmap, !length_map_to_list. split.
  - unfold configure, get. rewrite map_size_insert.
    destruct (reg !! makeKey (method config) (path config)) eqn:E.
    + rewrite bool_decide_eq_true_2; [done|by eexists].
    + rewrite bool_decide_eq_false_2; [done|by intros [? ?]].
  - unfold getNextResponse. destruct (get reg m p) as [stored|] eqn:E; [|done].
    destruct (length (responses stored) =? 0)%nat; [done|]. cbn.
    unfold get in E. by rewrite map_size_insert, E.
Qed.

End registry_more.

(** ** The states a server can reach *)

Section reachable.
Import Server Routes.

Lemma preserves_ret {A} (a : A) : preserves (mret a).
Proof. by intros w H. Qed.

Lemma preserves_bind {A B} (c : M A) (k : A -> M B) :
  preserves c -> (forall a, preserves (k a)) -> preserves (c ≫= k).
Proof.
  intros Hc Hk w H. unfold mbind, M_bind. specialize (Hc w H).
  destruct (c w) as [a w1]. by apply Hk.
Qed.

Lemma preserves_gets {A} (f : World -> A) : preserves (gets f).
Proof. by intros w H. Qed.

Lemma preserves_Date_now : preserves Date_now.
Proof. by intros w H. Qed.

Lemma preserves_record_call ws c : preserves (modify (record_call ws c)).
Proof. by intros w H. Qed.

Lemma preserves_connections f : preserves (modify (with_connections f)).
Proof. by intros w H. Qed.

Lemma preserves_insert id session :
  session_id session = id -> keyed (endpoints session) ->
  preserves (modify (with_sessions (insert id session))).
Proof.
  intros Hid Hk w H id' s. cbn.
  intros [[<- <-]|[_ Hs]]%lookup_insert_Some; [done|by apply H].
Qed.

Lemma preserves_delete id : preserves (modify (with_sessions (delete id))).
Proof. intros w H id' s. cbn. intros [_ Hs]%lookup_delete_Some. by apply H. Qed.

Lemma preserves_on_session id (f : Session -> Session) :
  (forall s, session_id (f s) = session_id s) ->
  (forall s, keyed (endpoints s) -> keyed (endpoints (f s))) ->
  preserves (on_session id f).
Proof.
  intros Hid Hk w H id' s. unfold on_session. cbn.
  destruct (decide (id = id')) as [<-|Hne].
  - rewrite lookup_alter_eq. destruct (sessions w !! id) as [s0|] eqn:E; [|done].
    cbn. intros [= <-]. destruct (H id s0 E) as [H1 H2].
    split; [by rewrite Hid | by apply Hk].
  - rewrite lookup_alter_ne by done. by apply H.
Qed.

Lemma keyed_empty : keyed ∅.
Proof. intros key config. by rewrite lookup_empty. Qed.

Lemma keyed_insert key config (reg : gmap string EndpointConfig) :
  key = EndpointRegistry.makeKey (method config) (path config) ->
  keyed reg -> keyed (<[key := config]> reg).
Proof.
  intros Hkey Hk key' c. intros [[<- <-]|[_ H]]%lookup_insert_Some; [done|by apply Hk].
Qed.

Lemma keyed_delete key (reg : gmap string EndpointConfig) :
  keyed reg -> keyed (delete key reg).
Proof. intros Hk key' c [_ H]%lookup_delete_Some. by apply Hk. Qed.

Lemma preserves_getOrCreate id : preserves (SessionManager.getOrCreate id).
Proof.
  intros w H. unfold SessionManager.getOrCreate. run.
  destruct (sessions w !! id) eqn:E; [done|]. cbn.
  intros id' s [[<- <-]|[_ Hs]]%lookup_insert_Some; [|by apply H].
  split; [done|apply keyed_empty].
Qed.

Lemma preserves_updateActivity id : preserves (SessionManager.updateActivity id).
Proof.
  unfold SessionManager.updateActivity. apply preserves_bind; [apply preserves_gets|].
  intros [s|]; [|apply preserves_ret].
  apply preserves_bind; [apply preserves_Date_now|]. intros now.
  by apply (preserves_on_session id (SessionManager.set_lastActivityAt now)).
Qed.

Lemma preserves_deleteSession id : preserves (SessionManager.deleteSession id).
Proof.
  unfold SessionManager.deleteSession. apply preserves_bind; [apply preserves_gets|].
  intros [s|]; [|apply preserves_ret].
  apply preserves_bind.
  - destruct (websocket s); [apply preserves_record_call | apply preserves_ret].
  - intros _. apply preserves_bind; [apply preserves_delete | intros; apply preserves_ret].
Qed.

Lemma preserves_for_each {A} (xs : list A) (body : A -> M unit) :
  (forall x, preserves (body x)) -> preserves (for_each xs body).
Proof.
  intros Hb. induction xs as [|x xs IH]; [apply preserves_ret|].
  cbn. apply preserves_bind; [apply Hb | by intros].
Qed.

Lemma preserves_delete_all ids :
  preserves (for_each ids (fun id => SessionManager.deleteSession id ;; mret tt)).
Proof.
  apply preserves_for_each. intros id.
  apply preserves_bind; [apply preserves_deleteSession | intros; apply preserves_ret].
Qed.

Lemma preserves_set_endpoint id key config :
  key = EndpointRegistry.makeKey (method config) (path config) ->
  preserves (on_session id (set_endpoint key config)).
Proof.
  intros Hkey. apply preserves_on_session; [done|].
  intros s Hk. by apply keyed_insert.
Qed.

Lemma preserves_clearing id (method path : option string) :
  preserves
    (if truthy method && truthy path
     then on_session id
            (delete_endpoint (toUpperCase (default "" method) +:+ ":" +:+ default "" path))
     else on_session id clear_endpoints).
Proof.
  destruct (truthy method && truthy path); apply preserves_on_session; try done.
  intros s Hk. by apply keyed_delete.
Qed.

Lemma preserves_sendAction id action params :
  preserves (WebSocketHub.sendAction id action params).
Proof.
  unfold WebSocketHub.sendAction. apply preserves_bind; [apply preserves_gets|].
  intros [ws|]; [|apply preserves_ret].
  apply preserves_bind; [apply preserves_record_call | intros; apply preserves_ret].
Qed.

Lemma preserves_sendData id data : preserves (WebSocketHub.sendData id data).
Proof.
  unfold WebSocketHub.sendData. apply preserves_bind; [apply preserves_gets|].
  intros [ws|]; [|apply preserves_ret].
  apply preserves_bind; [apply preserves_record_call | intros; apply preserves_ret].
Qed.

Lemma preserves_gets_bind {A B} (f : World -> A) (k : A -> M B) :
  (forall w, well_keyed (sessions w) -> well_keyed (sessions (snd (k (f w) w)))) ->
  preserves (gets f ≫= k).
Proof. intros Hk w H. by apply Hk. Qed.

(** Reduces the goal at state [w] to the preservation by the computation
    that runs there. *)
Ltac at_state w H :=
  match goal with
  | |- well_keyed (sessions (snd (?c w))) =>
      let P := fresh "P" in enough (P : preserves c) by exact (P w H)
  end.

Lemma preserves_push id record : preserves (on_session id (push_record record)).
Proof. by apply preserves_on_session. Qed.

Lemma preserves_trim id : preserves (on_session id trim_history).
Proof.
  apply preserves_on_session; intros s; unfold trim_history;
    by destruct (1000 <? length (requestHistory s))%nat.
Qed.

Lemma preserves_dataPlane id wildcard verb : preserves (dataPlane id wildcard verb).
Proof.
  unfold dataPlane. cbv zeta.
  apply preserves_bind; [apply preserves_Date_now|]. intros startTime.
  apply preserves_bind; [apply preserves_getOrCreate|]. intros _.
  apply preserves_bind; [apply preserves_updateActivity|]. intros _.
  apply preserves_gets_bind. intros w H.
  assert (Hmiss : forall finished, preserves
            (stamp ← Date_now;
             on_session id (push_record
               {| rr_method := verb; rr_path := "/" +:+ wildcard; rr_status := 404;
                  timestamp := stamp; configured := false;
                  responseTime := finished - startTime |}) ;;
             mret (mkReply 404 [] (Some (not_configured verb ("/" +:+ wildcard)))))).
  { intros finished. apply preserves_bind; [apply preserves_Date_now|]. intros stamp.
    apply preserves_bind; [apply preserves_push | intros; apply preserves_ret]. }
  destruct (sessions w !! id ≫= _) as [config|] eqn:Hcfg.
  - assert (Hkey : toUpperCase verb +:+ ":" +:+ "/" +:+ wildcard
                   = EndpointRegistry.makeKey (method config) (path config)).
    { destruct (sessions w !! id) as [s|] eqn:E; [|done]. cbn in Hcfg.
      destruct (H id s E) as [_ Hk]. by apply Hk. }
    at_state w H.
    apply preserves_bind; [apply preserves_Date_now|]. intros finished.
    destruct (responses config) as [|first rest]; [apply Hmiss|].
    apply preserves_bind; [by apply preserves_set_endpoint|]. intros _.
    apply preserves_bind; [apply preserves_Date_now|]. intros stamp.
    apply preserves_bind; [apply preserves_push|]. intros _.
    apply preserves_bind; [apply preserves_trim | intros; apply preserves_ret].
  - at_state w H.
    apply preserves_bind; [apply preserves_Date_now|]. intros finished. apply Hmiss.
Qed.

Lemma preserves_ignore {A} (c : M A) : preserves c -> preserves (ignore c).
Proof. intros H. apply preserves_bind; [done | intros; apply preserves_ret]. Qed.

Lemma preserves_handle e : preserves (handle e).
Proof.
  destruct e as [sid wc verb | sid verb pth rs | sid | sid verb pth | sid limit | | sid
                | sid socket | sid action params | sid data | | sid verb pth rs | | sid | sid
                | sid verb pth | sid limit | sid action params | sid data];
    cbn [handle]; try apply preserves_ignore.
  - apply preserves_dataPlane.
  - unfold postEndpoints.
    apply preserves_bind; [apply preserves_getOrCreate|]. intros _.
    apply preserves_bind; [apply preserves_updateActivity|]. intros _.
    apply preserves_bind; [by apply preserves_set_endpoint | intros; apply preserves_ret].
  - unfold getEndpoints.
    apply preserves_bind; [apply preserves_getOrCreate | intros; apply preserves_ret].
  - unfold deleteEndpoints.
    apply preserves_bind; [apply preserves_getOrCreate|]. intros _.
    apply preserves_bind; [apply preserves_clearing | intros; apply preserves_ret].
  - unfold getRequests. cbv zeta.
    apply preserves_bind; [apply preserves_getOrCreate | intros; apply preserves_ret].
  - unfold getSessions, listSessions. apply preserves_gets.
  - unfold deleteSessionRoute.
    apply preserves_bind; [apply preserves_deleteSession|]. intros []; apply preserves_ret.
  - unfold socketRoute.
    apply preserves_bind; [apply preserves_getOrCreate|]. intros _.
    apply preserves_bind; [by apply preserves_on_session|]. intros _.
    apply preserves_connections.
  - unfold postSocketAction.
    apply preserves_bind; [apply preserves_sendAction|]. intros []; apply preserves_ret.
  - unfold postSocketMessage.
    apply preserves_bind; [apply preserves_sendData|]. intros []; apply preserves_ret.
  - unfold SessionManager.cleanupExpired.
    apply preserves_bind; [apply preserves_Date_now|]. intros now.
    apply preserves_bind; [apply preserves_gets|]. intros ids. apply preserves_delete_all.
  - unfold Tools.configure_endpoint.
    destruct (negb (truthy sid) || negb (truthy verb) || negb (truthy pth));
      [apply preserves_ret|].
    destruct rs as [[|r rs]|]; try apply preserves_ret. cbv zeta.
    apply preserves_bind; [apply preserves_getOrCreate|]. intros _.
    apply preserves_bind; [by apply preserves_set_endpoint | intros; apply preserves_ret].
  - unfold Tools.list_sessions, listSessions.
    apply preserves_bind; [apply preserves_gets | intros; apply preserves_ret].
  - unfold Tools.delete_session.
    destruct (negb (truthy sid)); [apply preserves_ret|]. cbv zeta.
    apply preserves_bind; [apply preserves_deleteSession|]. intros []; apply preserves_ret.
  - unfold Tools.list_endpoints.
    destruct (negb (truthy sid)); [apply preserves_ret|].
    apply preserves_bind; [apply preserves_getOrCreate | intros; apply preserves_ret].
  - unfold Tools.clear_endpoints.
    destruct (negb (truthy sid)); [apply preserves_ret|]. cbv zeta.
    apply preserves_bind; [apply preserves_getOrCreate|]. intros _.
    apply preserves_bind; [apply preserves_clearing | intros; apply preserves_ret].
  - unfold Tools.get_request_history. cbv zeta.
    destruct (negb (truthy sid)); [apply preserves_ret|].
    apply preserves_bind; [apply preserves_getOrCreate | intros; apply preserves_ret].
  - unfold Tools.send_websocket_action.
    destruct (negb (truthy sid) || negb (truthy action)); [apply preserves_ret|].
    apply preserves_bind; [apply preserves_sendAction|]. intros []; apply preserves_ret.
  - unfold Tools.send_websocket_data.
    destruct (negb (truthy sid) || bool_decide (data = None)); [apply preserves_ret|].
    apply preserves_bind; [apply preserves_sendData|]. intros []; apply preserves_ret.
Qed.

Lemma well_keyed_after events sessionTTL wall :
  well_keyed (sessions (after events sessionTTL wall)).
Proof.
  unfold after. apply (preserves_for_each events handle preserves_handle).
  intros id s. cbn. by rewrite lookup_empty.
Qed.

Lemma elem_of_listSessions w meta :
  meta ∈ fst (listSessions w)
  <-> exists id session, sessions w !! id = Some session /\ meta = metadata session.
Proof.
  unfold listSessions, gets. cbn. rewrite list_elem_of_fmap. split.
  - intros ([id s] & -> & Hin). exists id, s. split; [|done]. by apply elem_of_map_to_list.
  - intros (id & s & Hs & ->). exists (id, s). split; [done|]. by apply elem_of_map_to_list.
Qed.

(** In every state a server reaches, each session is stored under its own
    id, so every entry of [listSessions] names the stored session it
    describes; and each endpoint a session lists is the one found under the
    key of its own method and path. *)
Theorem reachable_well_keyed events sessionTTL wall :
  let w := after events sessionTTL wall in
  (forall id session, sessions w !! id = Some session -> session_id session = id)
  /\ (forall meta, meta ∈ fst (listSessions w) ->
        exists session, sessions w !! meta_id meta = Some session /\ metadata session = meta)
  /\ (forall id session config,
        sessions w !! id = Some session ->
        config ∈ EndpointRegistry_list (endpoints session) ->
        endpoints session !! EndpointRegistry.makeKey (method config) (path config)
        = Some config).
Proof.
  cbv zeta. pose proof (well_keyed_after events sessionTTL wall) as H.
  split; [|split].
  - intros id s Hs. by destruct (H id s Hs).
  - intros meta (id & s & Hs & ->)%elem_of_listSessions. exists s.
    destruct (H id s Hs) as [Hid _]. cbn. by rewrite Hid.
  - intros id s config Hs (key & Hc)%elem_of_registry_list.
    destruct (H id s Hs) as [_ Hk]. by rewrite <- (Hk key config Hc).
Qed.

End reachable.

(** ** More on the session store *)

Section session_more.
Import SessionManager.

Lemma cleanupExpired_lookup w id :
  sessions (snd (cleanupExpired w)) !! id
  = match sessions w !! id with
    | Some s => if decide (ttl w < wall w (reads w) - lastActivityAt s) then None else Some s
    | None => None
    end.
Proof.
  unfold cleanupExpired. run.
  set (now := wall w (reads w)). set (w0 := mkWorld _ _ _ _ _ _).
  set (ids := expired_ids now (ttl w) (map_to_list (sessions w))).
  destruct (for_each_delete_spec ids w0) as (Hs & _). cbv zeta in Hs.
  destruct (for_each ids _ w0) as [[] w'] eqn:E. cbn in *. rewrite Hs.
  pose proof (elem_of_expired_ids now (ttl w) (sessions w) id) as Hin. fold ids in Hin.
  destruct (sessions w !! id) as [s|] eqn:Hid.
  - destruct (decide (id ∈ ids)) as [Hexp|Hexp],
             (decide (ttl w < now - lastActivityAt s)) as [Hage|Hage]; try done.
    + apply Hin in Hexp as (s' & [= <-] & ?). done.
    + exfalso. apply Hexp, Hin. by exists s.
  - by case_decide.
Qed.

(** [updateActivity] does nothing for an id that is not in the store (no
    session is created, the clock is not read). For a stored session it
    sets [lastActivityAt] to the clock reading, and the sweep that follows
    keeps the session exactly when its own clock reading is at most [ttl]
    later. *)
Theorem updateActivity_then_sweep w id :
  (sessions w !! id = None -> updateActivity id w = (tt, w))
  /\ (forall s, sessions w !! id = Some s ->
        let touched := wall w (reads w) in
        let now := wall w (S (reads w)) in
        let w1 := snd (updateActivity id w) in
        sessions w1 = <[id := set_lastActivityAt touched s]> (sessions w)
        /\ (now - touched <= ttl w ->
              sessions (snd (cleanupExpired w1)) !! id = Some (set_lastActivityAt touched s))
        /\ (now - touched > ttl w -> sessions (snd (cleanupExpired w1)) !! id = None)).
Proof.
  split.
  - intros H. unfold updateActivity. run. by rewrite H.
  - intros s H. cbv zeta.
    assert (Hw1 : snd (updateActivity id w)
                  = mkWorld (<[id := set_lastActivityAt (wall w (reads w)) s]> (sessions w))
                      (ttl w) (connections w) (socket_log w) (wall w) (S (reads w))).
    { unfold updateActivity. run. rewrite H. cbn. unfold with_sessions. cbn. f_equal.
      apply map_eq. intros k. destruct (decide (id = k)) as [<-|Hne].
      - by rewrite lookup_alter_eq, lookup_insert_eq, H.
      - by rewrite lookup_alter_ne, lookup_insert_ne. }
    rewrite Hw1. split; [done|].
    split; intros Hage; rewrite cleanupExpired_lookup; cbn; rewrite lookup_insert_eq; cbn.
    + rewrite decide_False; [done|lia].
    + rewrite decide_True; [done|lia].
Qed.

Lemma updateActivity_then_sweep_witness :
  sessions (snd (cleanupExpired (snd (updateActivity "old" sweep_scene)))) !! "old"
  = Some (mkSession "old" 0 6000 ∅ (Some 3%nat) []).
Proof.
  destruct (updateActivity_then_sweep sweep_scene "old") as [_ H].
  destruct (H (mkSession "old" 0 0 ∅ (Some 3%nat) []) ltac:(reflexivity)) as (_ & Hkeep & _).
  apply Hkeep. vm_compute. discriminate.
Defined.

(** [destroy] leaves no session behind and closes the socket of every
    session that held one; sockets no session held are not touched, and
    the hub keeps its entries. *)
Theorem destroy_closes_all w :
  let w' := snd (destroy w) in
  sessions w' = ∅
  /\ connections w' = connections w
  /\ (forall id s ws, sessions w !! id = Some s -> websocket s = Some ws ->
        ws_close_call ∈ socket_calls w' ws)
  /\ (forall ws,
        (forall id s, sessions w !! id = Some s -> websocket s <> Some ws) ->
        socket_calls w' ws = socket_calls w ws).
Proof.
  cbv zeta. unfold destroy. run.
  set (ids := (map_to_list (sessions w)).*1).
  destruct (for_each_delete_spec ids w) as (Hs & Hc & _ & Hcl & Ho). cbv zeta in *.
  destruct (for_each ids _ w) as [[] w'] eqn:E. cbn in *.
  assert (Hin : forall id s, sessions w !! id = Some s -> id ∈ ids).
  { intros id s H. apply list_elem_of_fmap. exists (id, s). split; [done|].
    by apply elem_of_map_to_list. }
  split; [|split; [done|split]].
  - apply map_eq. intros id. rewrite Hs, lookup_empty. case_decide as Hid; [done|].
    destruct (sessions w !! id) as [s|] eqn:H; [|done]. exfalso. by apply Hid, (Hin id s).
  - intros id s ws H Hws. apply (Hcl id s ws); [by apply (Hin id s)|done|done].
  - intros ws Hnot. apply Ho. intros id s _. apply Hnot.
Qed.

(** [listSessions] has one entry per stored session and changes nothing.
    Its [connected] flag is read from the session's own [websocket] field:
    a channel registered in the hub alone does not show, a socket that
    connected through the WebSocket route does. *)
Theorem listSessions_connected w id ws :
  snd (listSessions w) = w
  /\ length (fst (listSessions w)) = size (sessions w)
  /\ (forall meta, meta ∈ fst (listSessions w)
        <-> exists id' s, sessions w !! id' = Some s /\ meta = metadata s)
  /\ fst (listSessions (snd (WebSocketHub.register id ws w))) = fst (listSessions w)
  /\ (exists s, sessions (snd (Routes.socketRoute id ws w)) !! id = Some s
        /\ websocket s = Some ws
        /\ connected (metadata s) = true
        /\ metadata s ∈ fst (listSessions (snd (Routes.socketRoute id ws w)))).
Proof.
  split; [done|]. split; [|split; [|split]].
  - unfold listSessions, gets. cbn. by rewrite length_fmap, length_map_to_list.
  - intros meta. apply elem_of_listSessions.
  - done.
  - assert (H : exists s, sessions (snd (Routes.socketRoute id ws w)) !! id = Some s
                  /\ websocket s = Some ws).
    { unfold Routes.socketRoute, getOrCreate, Server.on_session, WebSocketHub.register. run.
      destruct (sessions w !! id) as [s|] eqn:E; cbn.
      - rewrite lookup_alter_eq, E. by eexists.
      - rewrite lookup_alter_eq, lookup_insert_eq. by eexists. }
    destruct H as (s & Hs & Hws). exists s. repeat split; try done.
    + cbn. rewrite Hws. by apply bool_decide_eq_true.
    + apply elem_of_listSessions. by exists id, s.
Qed.

End session_more.

(** ** More on the routes *)

Section routes_more.
Import Server Routes.

Lemma alone_ret {A} b (x : A) : leaves_alone b (mret x).
Proof. by intros w. Qed.

Lemma alone_bind {A B} b (c : M A) (k : A -> M B) :
  leaves_alone b c -> (forall x, leaves_alone b (k x)) -> leaves_alone b (c ≫= k).
Proof.
  intros Hc Hk w. unfold mbind, M_bind. destruct (Hc w) as [H1 H2].
  destruct (c w) as [x w1]. cbn in *. destruct (Hk x w1) as [H3 H4].
  by rewrite H3, H4.
Qed.

Lemma alone_gets {A} b (f : World -> A) : leaves_alone b (gets f).
Proof. by intros w. Qed.

Lemma alone_Date_now b : leaves_alone b Date_now.
Proof. by intros w. Qed.

Lemma alone_record_call b ws c : leaves_alone b (modify (record_call ws c)).
Proof. by intros w. Qed.

Lemma alone_on_session a b f : a <> b -> leaves_alone b (on_session a f).
Proof. intros Hne w. unfold on_session. cbn. by rewrite lookup_alter_ne. Qed.

Lemma alone_getOrCreate a b : a <> b -> leaves_alone b (SessionManager.getOrCreate a).
Proof.
  intros Hne w. unfold SessionManager.getOrCreate. run.
  destruct (sessions w !! a); cbn; [done|]. by rewrite lookup_insert_ne.
Qed.

Lemma alone_updateActivity a b : a <> b -> leaves_alone b (SessionManager.updateActivity a).
Proof.
  intros Hne. unfold SessionManager.updateActivity.
  apply alone_bind; [apply alone_gets|]. intros [s|]; [|apply alone_ret].
  apply alone_bind; [apply alone_Date_now|]. intros now.
  by apply (alone_on_session a b).
Qed.

Lemma alone_deleteSession a b : a <> b -> leaves_alone b (SessionManager.deleteSession a).
Proof.
  intros Hne. unfold SessionManager.deleteSession.
  apply alone_bind; [apply alone_gets|]. intros [s|]; [|apply alone_ret].
  apply alone_bind; [destruct (websocket s); [apply alone_record_call|apply alone_ret]|].
  intros _. apply alone_bind; [|intros; apply alone_ret].
  intros w. cbn. by rewrite lookup_delete_ne.
Qed.

Lemma alone_register a b ws : a <> b -> leaves_alone b (WebSocketHub.register a ws).
Proof. intros Hne w. unfold WebSocketHub.register. cbn. by rewrite lookup_insert_ne. Qed.

(** Sessions are isolated: a data-plane request, a configuration, a
    clearing of endpoints, a deletion or a socket connecting for session
    [a] leaves what the store and the hub hold for any other session [b] as
    it was. *)
Theorem sessions_isolated a b :
  a <> b ->
  (forall wildcard verb, leaves_alone b (dataPlane a wildcard verb))
  /\ (forall verb pth rs, leaves_alone b (postEndpoints a verb pth rs))
  /\ (forall verb pth, leaves_alone b (deleteEndpoints a verb pth))
  /\ leaves_alone b (deleteSessionRoute a)
  /\ (forall socket, leaves_alone b (socketRoute a socket)).
Proof.
  intros Hne. split; [|split; [|split; [|split]]].
  - intros wildcard verb. unfold dataPlane. cbv zeta.
    apply alone_bind; [apply alone_Date_now|]. intros startTime.
    apply alone_bind; [by apply alone_getOrCreate|]. intros _.
    apply alone_bind; [by apply alone_updateActivity|]. intros _.
    apply alone_bind; [apply alone_gets|]. intros config.
    apply alone_bind; [apply alone_Date_now|]. intros finished.
    assert (Hmiss : forall record reply, leaves_alone b
              (stamp ← Date_now; on_session a (push_record (record stamp)) ;;
               mret (reply : Reply))).
    { intros record reply. apply alone_bind; [apply alone_Date_now|]. intros stamp.
      apply alone_bind; [by apply alone_on_session | intros; apply alone_ret]. }
    destruct config as [config|];
      [|exact (Hmiss (fun stamp => mkRequestRecord _ _ _ stamp _ _) _)].
    destruct (responses config) as [|first rest];
      [exact (Hmiss (fun stamp => mkRequestRecord _ _ _ stamp _ _) _)|].
    apply alone_bind; [by apply alone_on_session|]. intros _.
    apply alone_bind; [apply alone_Date_now|]. intros stamp.
    apply alone_bind; [by apply alone_on_session|]. intros _.
    apply alone_bind; [by apply alone_on_session | intros; apply alone_ret].
  - intros verb pth rs. unfold postEndpoints.
    apply alone_bind; [by apply alone_getOrCreate|]. intros _.
    apply alone_bind; [by apply alone_updateActivity|]. intros _.
    apply alone_bind; [by apply alone_on_session | intros; apply alone_ret].
  - intros verb pth. unfold deleteEndpoints.
    apply alone_bind; [by apply alone_getOrCreate|]. intros _.
    apply alone_bind; [|intros; apply alone_ret].
    destruct (truthy verb && truthy pth); by apply alone_on_session.
  - unfold deleteSessionRoute.
    apply alone_bind; [by apply alone_deleteSession|]. intros []; apply alone_ret.
  - intros socket. unfold socketRoute.
    apply alone_bind; [by apply alone_getOrCreate|]. intros _.
    apply alone_bind; [by apply alone_on_session|]. intros _.
    by apply alone_register.
Qed.

Lemma sessions_isolated_witness :
  let w := snd (postEndpoints "s2" "GET" "/api/test" [demo_200] fresh) in
  sessions (snd (postEndpoints "s1" "GET" "/api/test" [demo_500] w)) !! "s2"
  = sessions w !! "s2".
Proof.
  intros w.
  destruct (sessions_isolated "s1" "s2" ltac:(discriminate)) as (_ & H & _).
  exact (proj1 (H "GET" "/api/test" [demo_500] w)).
Defined.

(** Request after request, the data plane answers a configured endpoint
    whose statuses are all valid with the responses
    [EndpointRegistry.getNextResponse] returns call after call on the
    session's endpoints, and leaves the endpoints as those calls leave
    them. *)
Theorem dataPlane_follows_registry times w sessionId wildcard verb config :
  endpoints_of w sessionId !! EndpointRegistry.makeKey verb ("/" +:+ wildcard) = Some config ->
  responses config <> [] ->
  Forall valid_status (responses config) ->
  Some <$> fst (dataPlaneMany times sessionId wildcard verb w)
  = fmap reply_of <$> fst (callMany times (endpoints_of w sessionId) verb ("/" +:+ wildcard))
  /\ endpoints_of (snd (dataPlaneMany times sessionId wildcard verb w)) sessionId
     = snd (callMany times (endpoints_of w sessionId) verb ("/" +:+ wildcard)).
Proof. intros Hcfg Hne _. by apply (dataPlaneMany_configured _ _ _ _ _ config). Qed.

Lemma dataPlane_follows_registry_witness :
  let w := snd (postEndpoints "s1" "GET" "/api/test" [demo_500; demo_200] fresh) in
  Some <$> fst (dataPlaneMany 3 "s1" "api/test" "get" w)
  = [Some (reply_of demo_500); Some (reply_of demo_200); Some (reply_of demo_200)].
Proof.
  intros w.
  exact (proj1 (dataPlane_follows_registry 3 w "s1" "api/test" "get" demo_config
                  ltac:(reflexivity) ltac:(discriminate)
                  ltac:(repeat constructor; unfold valid_status; cbn; lia))).
Defined.

(** The record a configured request appends, spelled out. *)
Lemma dataPlane_configured_record w sessionId wildcard verb config :
  endpoints_of w sessionId !! EndpointRegistry.makeKey verb ("/" +:+ wildcard) = Some config ->
  responses config <> [] ->
  exists response stamp elapsed,
    fst (dataPlane sessionId wildcard verb w) = reply_of response
    /\ let appended :=
         history_of w sessionId
         ++ [mkRequestRecord verb ("/" +:+ wildcard) (status response) stamp true elapsed] in
       history_of (snd (dataPlane sessionId wildcard verb w)) sessionId
       = if (1000 <? length appended)%nat then slice_last 1000 appended else appended.
Proof.
  intros Hcfg Hne.
  destruct (sessions w !! sessionId) as [session|] eqn:E;
    unfold endpoints_of in Hcfg; rewrite E in Hcfg; cbn in Hcfg;
    [|by rewrite lookup_empty in Hcfg].
  set (index := Nat.min (callCount config) (length (responses config) - 1)).
  destruct (responses config !! index) as [response|] eqn:Hresp.
  2: { apply lookup_ge_None in Hresp. destruct (responses config); [done|].
       cbn in *. lia. }
  exists response.
  unfold dataPlane, SessionManager.getOrCreate, SessionManager.updateActivity, on_session.
  unfold mbind, M_bind, mret, M_ret, gets, modify, Date_now. cbn -[Nat.ltb slice_last].
  rewrite E. cbn -[Nat.ltb slice_last]. rewrite E. cbn -[Nat.ltb slice_last].
  rewrite lookup_alter_eq, E. cbn -[Nat.ltb slice_last].
  unfold EndpointRegistry.makeKey in Hcfg. rewrite Hcfg.
  destruct (responses config) as [|first rest] eqn:Hrs; [done|].
  fold index. rewrite (nth_lookup _ _ first), Hresp. cbn -[Nat.ltb slice_last].
  exists (wall w (S (S (S (reads w))))), (wall w (S (S (reads w))) - wall w (reads w)).
  split; [reflexivity|].
  unfold history_of. cbn -[Nat.ltb slice_last].
  rewrite !lookup_alter_eq, E. cbn -[Nat.ltb slice_last].
  unfold trim_history. cbn -[Nat.ltb slice_last].
  by destruct (1000 <? length _)%nat.
Qed.

(** A request for a configured endpoint whose statuses are all valid
    appends its record, marked configured and carrying the method, the path
    and the status served, and then keeps the newest 1000 records: nothing
    is evicted while there is room, and afterwards the oldest records go
    first. *)
Theorem configured_request_history w sessionId wildcard verb config :
  endpoints_of w sessionId !! EndpointRegistry.makeKey verb ("/" +:+ wildcard) = Some config ->
  responses config <> [] ->
  Forall valid_status (responses config) ->
  let before := history_of w sessionId in
  let after := history_of (snd (dataPlane sessionId wildcard verb w)) sessionId in
  exists record evicted,
    before ++ [record] = evicted ++ after
    /\ configured record = true
    /\ rr_status record = reply_code (fst (dataPlane sessionId wildcard verb w))
    /\ rr_method record = verb /\ rr_path record = "/" +:+ wildcard
    /\ length after = Nat.min 1000 (S (length before))
    /\ last after = Some record.
Proof.
  intros Hcfg Hne _. cbv zeta.
  destruct (dataPlane_configured_record w sessionId wildcard verb config Hcfg Hne)
    as (response & stamp & elapsed & Hreply & Hhist).
  cbv zeta in Hhist. rewrite Hreply, Hhist. clear Hreply Hhist.
  set (record := mkRequestRecord _ _ _ _ _ _).
  set (before := history_of w sessionId).
  exists record.
  assert (Hafter : exists k, (k <= length before)%nat
            /\ (k = length before + 1 - 1000)%nat
            /\ (if (1000 <? length (before ++ [record]))%nat
                then slice_last 1000 (before ++ [record]) else before ++ [record])
               = drop k (before ++ [record])).
  { destruct (1000 <? length (before ++ [record]))%nat eqn:Hlen; cbn -[slice_last].
    - apply Nat.ltb_lt in Hlen. rewrite length_app in Hlen. cbn in Hlen.
      exists (length before + 1 - 1000)%nat. split; [lia|]. split; [done|].
      unfold slice_last. by rewrite length_app.
    - apply Nat.ltb_ge in Hlen. rewrite length_app in Hlen. cbn in Hlen.
      exists 0%nat. split; [lia|]. split; [lia|done]. }
  destruct Hafter as (k & Hk & Hkval & ->).
  exists (take k (before ++ [record])).
  split; [by rewrite take_drop|]. repeat split.
  - rewrite length_drop, length_app. cbn [length]. lia.
  - rewrite drop_app_le by done. apply last_snoc.
Qed.

Lemma configured_request_history_witness :
  let w := snd (postEndpoints "s1" "GET" "/api/test" [demo_500; demo_200] fresh) in
  exists record evicted,
    history_of w "s1" ++ [record]
    = evicted ++ history_of (snd (dataPlane "s1" "api/test" "GET" w)) "s1"
    /\ configured record = true.
Proof.
  intros w.
  destruct (configured_request_history w "s1" "api/test" "GET" demo_config
              ltac:(reflexivity) ltac:(discriminate)
              ltac:(repeat constructor; unfold valid_status; cbn; lia)) as (record & evicted & H1 & H2 & _).
  by exists record, evicted.
Defined.

(** The configuring route accepts an empty response list (it answers 201),
    and the endpoint then behaves as if it were not configured: the data
    plane answers 404 and records the request as unconfigured. *)
Theorem empty_responses_answer_404 w sessionId wildcard verb :
  let w1 := snd (postEndpoints sessionId verb ("/" +:+ wildcard) [] w) in
  reply_code (fst (postEndpoints sessionId verb ("/" +:+ wildcard) [] w)) = 201
  /\ fst (dataPlane sessionId wildcard verb w1)
     = mkReply 404 [] (Some (not_configured verb ("/" +:+ wildcard)))
  /\ exists record,
       history_of (snd (dataPlane sessionId wildcard verb w1)) sessionId
       = history_of w1 sessionId ++ [record]
       /\ configured record = false.
Proof.
  cbv zeta.
  destruct (postEndpoints_configures w sessionId verb ("/" +:+ wildcard) []) as [Hcode Hends].
  split; [done|].
  destruct (dataPlane_unconfigured
              (snd (postEndpoints sessionId verb ("/" +:+ wildcard) [] w))
              sessionId wildcard verb) as (record & w' & Hrun & Hhist & _ & Hflag & _).
  { right. eexists. rewrite Hends. unfold EndpointRegistry.configure. cbn.
    split; [apply lookup_insert_eq|done]. }
  rewrite Hrun. split; [done|]. by exists record.
Qed.

Lemma Array_slice_last {A} (k : Z) (l : list A) :
  1 <= k -> Array_slice (- k) l = slice_last (Z.to_nat k) l.
Proof.
  intros Hk. unfold Array_slice, slice_last. cbv zeta.
  destruct (Z.ltb_spec (- k) 0) as [_|?]; [|lia]. f_equal. lia.
Qed.

Lemma Array_slice_drop {A} (k : Z) (l : list A) :
  0 <= k -> Array_slice k l = drop (Z.to_nat k) l.
Proof.
  intros Hk. unfold Array_slice. cbv zeta.
  destruct (Z.ltb_spec k 0) as [?|_]; [lia|].
  destruct (Z.le_gt_cases k (Z.of_nat (length l))) as [Hle|Hgt].
  - f_equal. lia.
  - rewrite !drop_ge; [done|lia|lia].
Qed.

Lemma getRequests_value w sessionId limit :
  fst (getRequests sessionId limit w)
  = last_requests (default (Some 100) limit) (history_of w sessionId).
Proof.
  unfold getRequests, SessionManager.getOrCreate, history_of. run.
  by destruct (sessions w !! sessionId).
Qed.

Lemma truthy_Some (s : string) : s <> "" -> truthy (Some s) = true.
Proof. intros H. cbn. apply negb_true_iff. by apply String.eqb_neq. Qed.

Lemma get_request_history_value w sessionId limit :
  sessionId <> "" ->
  fst (Tools.get_request_history (Some sessionId) limit w)
  = Tools.tool_success (last_requests (Some (default 100 limit)) (history_of w sessionId)).
Proof.
  intros Hid. unfold Tools.get_request_history. cbv zeta.
  rewrite (truthy_Some _ Hid). cbn [negb].
  unfold SessionManager.getOrCreate, history_of. run.
  by destruct (sessions w !! sessionId).
Qed.

(** With a limit of at least 1 the history route sends the newest
    [min(limit, 1000)] records, all of them when there are fewer; without a
    limit it sends the newest 100. The tool [get_request_history] returns
    the same records. *)
Theorem getRequests_limit w sessionId (limit : Z) :
  1 <= limit ->
  let history := history_of w sessionId in
  let sent := fst (getRequests sessionId (Some (Some limit)) w) in
  sent = slice_last (Z.to_nat (Z.min limit 1000)) history
  /\ (exists older, history = older ++ sent)
  /\ length sent = Nat.min (length history) (Z.to_nat (Z.min limit 1000))
  /\ fst (getRequests sessionId None w) = slice_last 100 history
  /\ (sessionId <> "" ->
        fst (Tools.get_request_history (Some sessionId) (Some limit) w) = Tools.tool_success sent
        /\ fst (Tools.get_request_history (Some sessionId) None w)
           = Tools.tool_success (slice_last 100 history)).
Proof.
  intros Hlimit. cbv zeta. rewrite !getRequests_value.
  unfold default, from_option, id. cbn [last_requests].
  rewrite Array_slice_last by lia.
  split; [done|]. split; [|split; [|split]].
  - exists (take (length (history_of w sessionId) - Z.to_nat (Z.min limit 1000))
              (history_of w sessionId)).
    unfold slice_last. by rewrite take_drop.
  - unfold slice_last. rewrite length_drop. lia.
  - by rewrite (Array_slice_last 100).
  - intros Hid. rewrite !get_request_history_value by done.
    unfold default, from_option, id. cbn [last_requests].
    rewrite Array_slice_last by lia. by rewrite (Array_slice_last 100) by lia.
Qed.

Lemma getRequests_limit_witness :
  let w := snd (dataPlaneMany 5 "s1" "api/missing" "GET" fresh) in
  length (fst (getRequests "s1" (Some (Some 2)) w)) = 2%nat.
Proof.
  intros w.
  destruct (getRequests_limit w "s1" 2 ltac:(lia)) as (_ & _ & H & _).
  rewrite H. reflexivity.
Defined.

(** A limit that is not positive is no limit: with [limit=0], or a limit
    that does not parse, the history route sends the whole history, and
    with [limit=-k] the history without its [k] oldest records, however
    many remain. *)
Theorem getRequests_limit_not_positive w sessionId (limit : Z) :
  limit <= 0 ->
  fst (getRequests sessionId (Some (Some limit)) w)
  = drop (Z.to_nat (- limit)) (history_of w sessionId)
  /\ fst (getRequests sessionId (Some (Some 0)) w) = history_of w sessionId
  /\ fst (getRequests sessionId (Some None) w) = history_of w sessionId.
Proof.
  intros Hlimit. rewrite !getRequests_value.
  unfold default, from_option, id. cbn [last_requests].
  replace (Z.min limit 1000) with limit by lia.
  rewrite !Array_slice_drop by lia. done.
Qed.

Lemma getRequests_limit_not_positive_witness :
  let w := snd (dataPlaneMany 1001 "s1" "api/missing" "GET" fresh) in
  length (fst (getRequests "s1" (Some (Some 0)) w)) = 1001%nat.
Proof.
  intros w.
  rewrite (proj1 (proj2 (getRequests_limit_not_positive w "s1" 0 ltac:(lia)))).
  vm_compute. reflexivity.
Defined.

Lemma deleteEndpoints_value w sessionId verb pth :
  reply_code (fst (deleteEndpoints sessionId verb pth w)) = 204
  /\ history_of (snd (deleteEndpoints sessionId verb pth w)) sessionId = history_of w sessionId
  /\ endpoints_of (snd (deleteEndpoints sessionId verb pth w)) sessionId
     = if truthy verb && truthy pth
       then delete (toUpperCase (default "" verb) +:+ ":" +:+ default "" pth)
                   (endpoints_of w sessionId)
       else ∅.
Proof.
  unfold deleteEndpoints, SessionManager.getOrCreate, on_session, endpoints_of, history_of.
  run. destruct (sessions w !! sessionId) as [s|] eqn:E, (truthy verb && truthy pth); cbn;
    rewrite ?lookup_alter_eq, ?lookup_insert_eq, ?E; cbn; done.
Qed.

(** The route that clears endpoints removes one endpoint only when both
    [method] and [path] are given and non-empty: then the other endpoints of
    the session stay. If either is missing or empty, every endpoint of the
    session is removed. The history is kept in both cases. *)
Theorem deleteEndpoints_scope w sessionId (verb pth : option string) :
  let w' := snd (deleteEndpoints sessionId verb pth w) in
  reply_code (fst (deleteEndpoints sessionId verb pth w)) = 204
  /\ history_of w' sessionId = history_of w sessionId
  /\ (forall m p, verb = Some m -> pth = Some p -> m <> "" -> p <> "" ->
        endpoints_of w' sessionId !! EndpointRegistry.makeKey m p = None
        /\ forall key, key <> EndpointRegistry.makeKey m p ->
             endpoints_of w' sessionId !! key = endpoints_of w sessionId !! key)
  /\ (verb = None \/ verb = Some "" \/ pth = None \/ pth = Some "" ->
        endpoints_of w' sessionId = ∅).
Proof.
  cbv zeta. destruct (deleteEndpoints_value w sessionId verb pth) as (Hcode & Hhist & Hends).
  split; [done|]. split; [done|]. rewrite Hends. split.
  - intros m p -> -> Hm Hp. cbn.
    apply String.eqb_neq in Hm, Hp. rewrite Hm, Hp. cbn.
    split; [apply lookup_delete_eq|]. intros key Hkey. by apply lookup_delete_ne.
  - intros [-> | [-> | [-> | ->]]]; cbn; try done; destruct (truthy verb); cbn; done.
Qed.

Lemma deleteEndpoints_scope_witness :
  let w := snd (postEndpoints "s1" "POST" "/api/b" [demo_200]
             (snd (postEndpoints "s1" "GET" "/api/a" [demo_200] fresh))) in
  endpoints_of (snd (deleteEndpoints "s1" (Some "GET") None w)) "s1" = ∅
  /\ is_Some (endpoints_of (snd (deleteEndpoints "s1" (Some "GET") (Some "/api/a") w)) "s1"
                !! "POST:/api/b").
Proof.
  intros w. split.
  - apply (deleteEndpoints_scope w "s1" (Some "GET") None). right. right. by left.
  - destruct (deleteEndpoints_scope w "s1" (Some "GET") (Some "/api/a")) as (_ & _ & H & _).
    destruct (H "GET" "/api/a" eq_refl eq_refl ltac:(discriminate) ltac:(discriminate))
      as [_ Hother].
    rewrite Hother by discriminate. vm_compute. by eexists.
Defined.

Lemma socketRoute_value w sessionId socket :
  exists session,
    sessions (snd (socketRoute sessionId socket w)) !! sessionId = Some session
    /\ websocket session = Some socket
    /\ connections (snd (socketRoute sessionId socket w))
       = <[sessionId := socket]> (connections w)
    /\ socket_log (snd (socketRoute sessionId socket w)) = socket_log w.
Proof.
  unfold socketRoute, SessionManager.getOrCreate, on_session, WebSocketHub.register. run.
  destruct (sessions w !! sessionId) as [s|] eqn:E; cbn.
  - rewrite lookup_alter_eq, E. by eexists.
  - rewrite lookup_alter_eq, lookup_insert_eq. by eexists.
Qed.

(** A socket that connected through the WebSocket route is closed when its
    session is deleted: it receives exactly one [close], the session is
    gone, and [deleteSession] itself leaves the hub's entry for the id in
    place. *)
Theorem socket_closed_on_delete w sessionId socket :
  let w1 := snd (socketRoute sessionId socket w) in
  let w2 := snd (SessionManager.deleteSession sessionId w1) in
  connections w1 !! sessionId = Some socket
  /\ fst (SessionManager.deleteSession sessionId w1) = true
  /\ socket_calls w2 socket = socket_calls w socket ++ [ws_close_call]
  /\ (forall other, socket <> other -> socket_calls w2 other = socket_calls w other)
  /\ sessions w2 !! sessionId = None
  /\ connections w2 !! sessionId = Some socket.
Proof.
  cbv zeta. destruct (socketRoute_value w sessionId socket) as (s & Hs & Hws & Hc & Hlog).
  rewrite (deleteSession_present _ _ _ Hs), Hws. cbn [fst snd].
  assert (Hcalls : forall ws, socket_calls (snd (socketRoute sessionId socket w)) ws
                              = socket_calls w ws)
    by (intros ws; unfold socket_calls; by rewrite Hlog).
  repeat split.
  - rewrite Hc. apply lookup_insert_eq.
  - rewrite <- Hcalls. apply (socket_calls_record_eq (snd (socketRoute sessionId socket w))).
  - intros other Hne. rewrite <- Hcalls.
    by apply (socket_calls_record_ne (snd (socketRoute sessionId socket w))).
  - cbn. apply lookup_delete_eq.
  - cbn. rewrite Hc. apply lookup_insert_eq.
Qed.

(** A second socket connecting for the same session takes the place of the
    first in the hub and in the session. The first socket is neither closed
    nor written to, and what is sent to the session afterwards goes to the
    second socket alone. *)
Theorem socket_replaced w sessionId first second action params :
  first <> second ->
  let w2 := snd (socketRoute sessionId second (snd (socketRoute sessionId first w))) in
  connections w2 !! sessionId = Some second
  /\ (exists session, sessions w2 !! sessionId = Some session
        /\ websocket session = Some second)
  /\ socket_calls w2 first = socket_calls w first
  /\ fst (WebSocketHub.sendAction sessionId action params w2) = true
  /\ one_write second (action_envelope action params) w2
       (snd (WebSocketHub.sendAction sessionId action params w2))
  /\ socket_calls (snd (WebSocketHub.sendAction sessionId action params w2)) first
     = socket_calls w first.
Proof.
  intros Hne. cbv zeta.
  destruct (socketRoute_value w sessionId first) as (s1 & _ & _ & _ & Hlog1).
  destruct (socketRoute_value (snd (socketRoute sessionId first w)) sessionId second)
    as (s2 & Hs2 & Hws2 & Hc2 & Hlog2).
  set (w2 := snd (socketRoute sessionId second _)) in *.
  assert (Hconn : connections w2 !! sessionId = Some second)
    by (rewrite Hc2; apply lookup_insert_eq).
  assert (Hcalls : socket_calls w2 first = socket_calls w first)
    by (unfold socket_calls; by rewrite Hlog2, Hlog1).
  rewrite (sendAction_connected _ _ _ _ _ Hconn). cbn [fst snd].
  split; [done|]. split; [by exists s2|]. split; [done|]. split; [done|].
  split; [apply record_call_one_write|].
  rewrite socket_calls_record_ne by done. exact Hcalls.
Qed.

Lemma socket_replaced_witness :
  let w2 := snd (socketRoute "s1" 2%nat (snd (socketRoute "s1" 1%nat fresh))) in
  socket_calls (snd (WebSocketHub.sendAction "s1" "logout" None w2)) 1%nat = [].
Proof.
  intros w2.
  destruct (socket_replaced fresh "s1" 1%nat 2%nat "logout" None ltac:(discriminate))
    as (_ & _ & _ & _ & _ & H).
  exact H.
Defined.

Lemma dataPlane_new_session w sessionId wildcard verb :
  sessions w !! sessionId = None ->
  exists created active record,
    dataPlane sessionId wildcard verb w
    = (mkReply 404 [] (Some (not_configured verb ("/" +:+ wildcard))),
       mkWorld (<[sessionId := mkSession sessionId created active ∅ None [record]]> (sessions w))
               (ttl w) (connections w) (socket_log w) (wall w) (reads w + 6))
    /\ configured record = false.
Proof.
  intros E. unfold dataPlane, SessionManager.getOrCreate, SessionManager.updateActivity,
    on_session. run. rewrite E. cbn. rewrite lookup_insert_eq. cbn.
  rewrite lookup_alter_eq, lookup_insert_eq. cbn. rewrite lookup_empty.
  exists (wall w (S (reads w))), (wall w (S (S (S (reads w))))),
    (mkRequestRecord verb ("/" +:+ wildcard) 404 (wall w (S (S (S (S (S (reads w)))))))
       false (wall w (S (S (S (S (reads w))))) - wall w (reads w))).
  split; [|reflexivity]. cbn. f_equal. unfold with_sessions. cbn.
  f_equal; [|lia]. apply map_eq. intros k. destruct (decide (sessionId = k)) as [<-|Hne].
  - by rewrite !lookup_alter_eq, !lookup_insert_eq.
  - by rewrite !lookup_alter_ne, !lookup_insert_ne.
Qed.

(** Deleting a session through the control plane answers 204 when it
    existed and 404, changing nothing, when it did not. After a deletion
    the next data-plane request for that id starts a new session: it is
    answered 404 whatever had been configured, and the new session has no
    endpoints, no socket and that one request as its history. *)
Theorem deleted_session_starts_afresh w sessionId wildcard verb :
  (sessions w !! sessionId = None ->
     deleteSessionRoute sessionId w
     = (mkReply 404 [] (Some (JsObject [("error", JsString "Session not found")])), w))
  /\ (is_Some (sessions w !! sessionId) ->
        let w1 := snd (deleteSessionRoute sessionId w) in
        reply_code (fst (deleteSessionRoute sessionId w)) = 204
        /\ sessions w1 !! sessionId = None
        /\ reply_code (fst (dataPlane sessionId wildcard verb w1)) = 404
        /\ exists session,
             sessions (snd (dataPlane sessionId wildcard verb w1)) !! sessionId = Some session
             /\ session_id session = sessionId
             /\ endpoints session = ∅
             /\ websocket session = None
             /\ length (requestHistory session) = 1%nat).
Proof.
  split.
  - intros E. unfold deleteSessionRoute. unfold mbind, M_bind.
    by rewrite (deleteSession_missing _ _ E).
  - intros [s E]. cbv zeta.
    assert (Hdel : deleteSessionRoute sessionId w
                   = (mkReply 204 [] None,
                      snd (SessionManager.deleteSession sessionId w))).
    { unfold deleteSessionRoute. unfold mbind, M_bind.
      by rewrite (deleteSession_present _ _ _ E). }
    rewrite Hdel. cbn [fst snd reply_code].
    assert (Hgone : sessions (snd (SessionManager.deleteSession sessionId w)) !! sessionId
                    = None)
      by (rewrite deleteSession_sessions; apply lookup_delete_eq).
    split; [done|]. split; [done|].
    destruct (dataPlane_new_session _ sessionId wildcard verb Hgone)
      as (created & active & record & -> & _).
    split; [done|]. eexists. cbn. split; [apply lookup_insert_eq|]. done.
Qed.

Lemma deleted_session_starts_afresh_witness :
  let w := snd (postEndpoints "s1" "GET" "/api/test" [demo_200] fresh) in
  reply_code (fst (dataPlane "s1" "api/test" "GET" (snd (deleteSessionRoute "s1" w)))) = 404.
Proof.
  intros w.
  destruct (deleted_session_starts_afresh w "s1" "api/test" "GET") as [_ H].
  destruct (H ltac:(by eexists)) as (_ & _ & Hcode & _). exact Hcode.
Defined.

(** The two sending routes answer 200 when the hub has a connection for
    the session and 404, changing nothing, when it has none; in neither case
    is a session created or touched. *)
Theorem socket_routes_status w sessionId action params data :
  reply_code (fst (postSocketAction sessionId action params w))
    = (if bool_decide (is_Some (connections w !! sessionId)) then 200 else 404)
  /\ reply_code (fst (postSocketMessage sessionId data w))
    = (if bool_decide (is_Some (connections w !! sessionId)) then 200 else 404)
  /\ sessions (snd (postSocketAction sessionId action params w)) = sessions w
  /\ sessions (snd (postSocketMessage sessionId data w)) = sessions w
  /\ (connections w !! sessionId = None ->
        postSocketAction sessionId action params w
        = (mkReply 404 [] (Some (JsObject [("error", JsString "No active connection")])), w)
        /\ postSocketMessage sessionId data w
        = (mkReply 404 [] (Some (JsObject [("error", JsString "No active connection")])), w)).
Proof.
  unfold postSocketAction, postSocketMessage. unfold mbind, M_bind.
  destruct (connections w !! sessionId) as [ws|] eqn:E.
  - rewrite (sendAction_connected _ _ _ _ _ E), (sendData_connected _ _ _ _ E). cbn.
    done.
  - rewrite (sendAction_disconnected _ _ _ _ E), (sendData_disconnected _ _ _ E). cbn.
    done.
Qed.

(** The configuring route creates the session when needed, answers 201 and
    stores what [EndpointRegistry.configure] stores; whatever the counter of
    the endpoint was before, the next data-plane request for it is answered
    with the first of the new responses, when that one has a valid
    status. *)
Theorem postEndpoints_then_request w sessionId verb wildcard first rest :
  valid_status first ->
  let w1 := snd (postEndpoints sessionId verb ("/" +:+ wildcard) (first :: rest) w) in
  reply_code (fst (postEndpoints sessionId verb ("/" +:+ wildcard) (first :: rest) w)) = 201
  /\ endpoints_of w1 sessionId
     = EndpointRegistry.configure (endpoints_of w sessionId)
         (mkEndpointConfig verb ("/" +:+ wildcard) (first :: rest) 0)
  /\ history_of w1 sessionId = history_of w sessionId
  /\ fst (dataPlane sessionId wildcard verb w1) = reply_of first.
Proof.
  intros _. cbv zeta.
  destruct (postEndpoints_configures w sessionId verb ("/" +:+ wildcard) (first :: rest))
    as [Hcode Hends].
  split; [done|]. split; [done|]. split.
  - clear. unfold postEndpoints, SessionManager.getOrCreate, SessionManager.updateActivity,
      on_session, history_of. run.
    destruct (sessions w !! sessionId) as [s|] eqn:E; cbn.
    + rewrite E. cbn. by rewrite !lookup_alter_eq, E.
    + rewrite lookup_insert_eq. cbn. by rewrite !lookup_alter_eq, lookup_insert_eq.
  - destruct (dataPlane_configured
                (snd (postEndpoints sessionId verb ("/" +:+ wildcard) (first :: rest) w))
                sessionId wildcard verb
                (mkEndpointConfig verb ("/" +:+ wildcard) (first :: rest) 0))
      as (response & record & w' & Hnext & -> & _); [|done|].
    + rewrite Hends. unfold EndpointRegistry.configure. cbn. apply lookup_insert_eq.
    + rewrite Hends in Hnext. unfold EndpointRegistry.getNextResponse, EndpointRegistry.get,
        EndpointRegistry.configure in Hnext. cbn in Hnext.
      rewrite lookup_insert_eq in Hnext. cbn in Hnext. by injection Hnext as <-.
Qed.

Lemma postEndpoints_then_request_witness :
  fst (dataPlane "s1" "api/test" "GET"
         (snd (postEndpoints "s1" "GET" ("/" +:+ "api/test") [demo_500; demo_200] fresh)))
  = reply_of demo_500.
Proof.
  exact (proj2 (proj2 (proj2
    (postEndpoints_then_request fresh "s1" "GET" "api/test" demo_500 [demo_200]
       ltac:(unfold valid_status; cbn; lia))))).
Defined.

(** A data-plane request for an endpoint that has no configuration, or an
    empty response list, is answered 404 with the method and the path in the
    body; its record is appended marked unconfigured with status 404, and no
    endpoint of the session changes. *)
Theorem unconfigured_request w sessionId wildcard verb :
  (endpoints_of w sessionId !! EndpointRegistry.makeKey verb ("/" +:+ wildcard) = None
   \/ exists config,
        endpoints_of w sessionId !! EndpointRegistry.makeKey verb ("/" +:+ wildcard)
        = Some config /\ responses config = []) ->
  let w' := snd (dataPlane sessionId wildcard verb w) in
  fst (dataPlane sessionId wildcard verb w)
  = mkReply 404 [] (Some (JsObject [("error", JsString "Endpoint not configured");
                                    ("method", JsString verb);
                                    ("path", JsString ("/" +:+ wildcard))]))
  /\ endpoints_of w' sessionId = endpoints_of w sessionId
  /\ exists record,
       history_of w' sessionId = history_of w sessionId ++ [record]
       /\ configured record = false /\ rr_status record = 404.
Proof.
  intros H. cbv zeta.
  destruct (dataPlane_unconfigured w sessionId wildcard verb H)
    as (record & w' & -> & Hhist & Hends & Hflag & Hstatus).
  split; [done|]. split; [done|]. by exists record.
Qed.

Lemma unconfigured_request_witness :
  reply_code (fst (dataPlane "s1" "api/missing" "GET" fresh)) = 404.
Proof.
  destruct (unconfigured_request fresh "s1" "api/missing" "GET" ltac:(left; reflexivity))
    as (H & _).
  by rewrite H.
Defined.

End routes_more.

(** ** The tools *)

Section tools_facts.
Import Server Tools.

(** The tool [configure_endpoint] rejects a call whose [sessionId],
    [method] or [path] is missing or empty, or whose [responses] are
    missing or empty, and then changes nothing (no session is created).
    Otherwise it succeeds and leaves the session's endpoints as
    [EndpointRegistry.configure], and as the configuring route, would; unlike
    the route it does not touch [lastActivityAt], nor read the clock, when
    the session exists. *)
Theorem configure_endpoint_tool w (sessionId verb pth : option string)
    (rs : option (list ResponseConfig)) :
  (truthy sessionId = false \/ truthy verb = false \/ truthy pth = false ->
     configure_endpoint sessionId verb pth rs w
     = (tool_failure "Missing required fields: sessionId, method, path", w))
  /\ (truthy sessionId = true -> truthy verb = true -> truthy pth = true ->
      rs = None \/ rs = Some [] ->
      configure_endpoint sessionId verb pth rs w
      = (tool_failure "Must provide at least one response", w))
  /\ (forall id m p responses,
        sessionId = Some id -> verb = Some m -> pth = Some p -> rs = Some responses ->
        id <> "" -> m <> "" -> p <> "" -> responses <> [] ->
        let w' := snd (configure_endpoint sessionId verb pth rs w) in
        fst (configure_endpoint sessionId verb pth rs w) = tool_success tt
        /\ endpoints_of w' id
           = EndpointRegistry.configure (endpoints_of w id) (mkEndpointConfig m p responses 0)
        /\ endpoints_of w' id = endpoints_of (snd (postEndpoints id m p responses w)) id
        /\ (forall s, sessions w !! id = Some s ->
              reads w' = reads w
              /\ lastActivityAt <$> sessions w' !! id = Some (lastActivityAt s))).
Proof.
  split; [|split].
  - intros H. unfold configure_endpoint.
    assert (negb (truthy sessionId) || negb (truthy verb) || negb (truthy pth) = true) as ->;
      [|done].
    destruct H as [-> | [-> | ->]]; cbn; by rewrite ?orb_true_r.
  - intros H1 H2 H3 H. unfold configure_endpoint. rewrite H1, H2, H3. cbn.
    by destruct H as [-> | ->].
  - intros id m p responses -> -> -> -> Hid Hm Hp Hrs. cbv zeta.
    unfold configure_endpoint.
    rewrite !truthy_Some by done. cbn [negb orb default].
    destruct responses as [|r responses]; [done|].
    destruct (postEndpoints_configures w id m p (r :: responses)) as [_ ->].
    unfold SessionManager.getOrCreate, on_session, endpoints_of, EndpointRegistry.configure,
      EndpointRegistry.makeKey. run.
    destruct (sessions w !! id) as [s|] eqn:E; cbn.
    + rewrite !lookup_alter_eq, E. cbn. repeat split; try done. congruence.
    + rewrite !lookup_alter_eq, lookup_insert_eq. cbn. repeat split; try done.
Qed.

Lemma configure_endpoint_tool_witness :
  configure_endpoint (Some "s1") (Some "GET") (Some "") (Some [demo_200]) fresh
  = (tool_failure "Missing required fields: sessionId, method, path", fresh)
  /\ configure_endpoint (Some "s1") (Some "GET") (Some "/api/test") (Some []) fresh
     = (tool_failure "Must provide at least one response", fresh)
  /\ fst (configure_endpoint (Some "s1") (Some "GET") (Some "/api/test") (Some [demo_200]) fresh)
     = tool_success tt.
Proof.
  destruct (configure_endpoint_tool fresh (Some "s1") (Some "GET") (Some "") (Some [demo_200]))
    as (H1 & _ & _).
  destruct (configure_endpoint_tool fresh (Some "s1") (Some "GET") (Some "/api/test") (Some []))
    as (_ & H2 & _).
  destruct (configure_endpoint_tool fresh (Some "s1") (Some "GET") (Some "/api/test")
              (Some [demo_200])) as (_ & _ & H3).
  split; [|split].
  - apply H1. right. right. reflexivity.
  - apply H2; try reflexivity. by right.
  - exact (proj1 (H3 "s1" "GET" "/api/test" [demo_200] eq_refl eq_refl eq_refl eq_refl
                    ltac:(discriminate) ltac:(discriminate) ltac:(discriminate)
                    ltac:(discriminate))).
Defined.

(** The sending tools fail without writing anything when an argument is
    missing ([sessionId] or [action] empty or left out, [data] undefined) or
    when the hub has no connection for the session; otherwise they succeed
    and the session's channel receives exactly one write, of the envelope
    built from the arguments. *)
Theorem send_tools w (sessionId action : option string) (params data : option JsValue) :
  (truthy sessionId = false \/ truthy action = false ->
     send_websocket_action sessionId action params w
     = (tool_failure "Missing required fields: sessionId, action", w))
  /\ (truthy sessionId = false \/ data = None ->
      send_websocket_data sessionId data w
      = (tool_failure "Missing required fields: sessionId, data", w))
  /\ (forall id name,
        sessionId = Some id -> action = Some name -> id <> "" -> name <> "" ->
        match connections w !! id with
        | None =>
            send_websocket_action sessionId action params w
            = (tool_failure "No active connection for session", w)
        | Some ws =>
            fst (send_websocket_action sessionId action params w) = tool_success tt
            /\ one_write ws (action_envelope name params) w
                 (snd (send_websocket_action sessionId action params w))
        end)
  /\ (forall id value,
        sessionId = Some id -> data = Some value -> id <> "" ->
        match connections w !! id with
        | None =>
            send_websocket_data sessionId data w
            = (tool_failure "No active connection for session", w)
        | Some ws =>
            fst (send_websocket_data sessionId data w) = tool_success tt
            /\ one_write ws (data_envelope (Some value)) w
                 (snd (send_websocket_data sessionId data w))
        end).
Proof.
  split; [|split; [|split]].
  - intros H. unfold send_websocket_action.
    assert (negb (truthy sessionId) || negb (truthy action) = true) as ->; [|done].
    destruct H as [-> | ->]; cbn; by rewrite ?orb_true_r.
  - intros H. unfold send_websocket_data.
    assert (negb (truthy sessionId) || bool_decide (data = None) = true) as ->; [|done].
    destruct H as [-> | ->]; cbn; by rewrite ?orb_true_r.
  - intros id name -> -> Hid Hname. unfold send_websocket_action.
    rewrite !truthy_Some by done. cbn [negb orb default]. unfold mbind, M_bind.
    destruct (connections w !! id) as [ws|] eqn:E.
    + rewrite (sendAction_connected _ _ _ _ _ E). cbn.
      split; [done|apply record_call_one_write].
    + by rewrite (sendAction_disconnected _ _ _ _ E).
  - intros id value -> -> Hid. unfold send_websocket_data.
    rewrite !truthy_Some by done. cbn [negb orb default]. unfold mbind, M_bind.
    rewrite bool_decide_eq_false_2 by done.
    destruct (connections w !! id) as [ws|] eqn:E.
    + rewrite (sendData_connected _ _ _ _ E). cbn.
      split; [done|apply record_call_one_write].
    + by rewrite (sendData_disconnected _ _ _ E).
Qed.

Lemma send_tools_witness :
  let w := snd (WebSocketHub.register "s1" 7%nat fresh) in
  send_websocket_data (Some "s1") None w
  = (tool_failure "Missing required fields: sessionId, data", w)
  /\ fst (send_websocket_data (Some "s1") (Some JsNull) w) = tool_success tt.
Proof.
  intros w.
  destruct (send_tools w (Some "s1") None None None) as (_ & H1 & _).
  destruct (send_tools w (Some "s1") None None (Some JsNull)) as (_ & _ & _ & H2).
  split; [apply H1; by right|].
  exact (proj1 (H2 "s1" JsNull eq_refl eq_refl ltac:(discriminate))).
Defined.

End tools_facts.
